(** * Excel Assignment / Memo Line matcher: the matching core of [app.py]

    A shallow embedding of the functions of [src/app.py] that carry the
    logic of the application

      - [clean_and_normalize_text]   (the text normalizer),
      - [find_assignment_matches]    (the matcher),
      - [create_filtered_output]     (pair deduplication, output table),
      - [generate_insights]          (the summary),
      - [validate_excel_structure]   (the column check),

    followed by the properties the specification states about them.

    Modelling conventions.
      - A Python [str] is a [string]; each [ascii] is the code point of one
        character, so the model covers the texts whose code points are
        below 256.  On that range [str.isspace], the regex class [\s] and
        [str.lower] act character by character, as written out below.
      - A cell of the sheet is missing ([NaN]), a text or an integer.
        Floating-point, boolean and date cells are outside the model.
      - A [DataFrame] is the list of its column labels and the list of its
        rows; a label is a text or an integer (a header cell that holds a
        number); a row is a finite map from labels to cells, a label of
        the frame that a row does not bind being a missing cell.  Rows carry
        the default [RangeIndex] that [pd.read_excel] gives them: the
        label of a row is its position.
      - Python exceptions are values of [exn]; the module-level [logger]
        is a piece of state that every function threads through.
      - [int / int] is Python's true division; its floating-point result
        is modelled by the exact rational. *)

From Stdlib Require Import ZArith QArith String Ascii List Sorted DecimalString.
From stdpp Require Import base option list sorting strings gmap.

Local Open Scope string_scope.
Local Open Scope nat_scope.
Local Open Scope list_scope.

(** ** Characters and strings *)

Module Py.

(** [str.isspace] on one character, which is also the class [\s] of [re]
    for [str] patterns: TAB..CR, FS..US, SPACE, NEL and NBSP. *)
Definition isspace (c : ascii) : bool :=
  let n := nat_of_ascii c in
  ((9 <=? n) && (n <=? 13)) || ((28 <=? n) && (n <=? 32))
  || (n =? 133) || (n =? 160).

(** [str.lower] on one character: A..Z, and the Latin-1 capitals
    U+00C0..U+00DE without the multiplication sign U+00D7. *)
Definition lower_char (c : ascii) : ascii :=
  let n := nat_of_ascii c in
  if ((65 <=? n) && (n <=? 90))
     || ((192 <=? n) && (n <=? 222) && negb (n =? 215))
  then ascii_of_nat (n + 32) else c.

(** [s.lower()] *)
Fixpoint lower (s : string) : string :=
  match s with
  | EmptyString => EmptyString
  | String c s' => String (lower_char c) (lower s')
  end.

(** [s.lstrip()] *)
Fixpoint lstrip (s : string) : string :=
  match s with
  | EmptyString => EmptyString
  | String c s' => if isspace c then lstrip s' else s
  end.

(** [s.rstrip()]: a whitespace character goes when everything after it
    goes. *)
Fixpoint rstrip (s : string) : string :=
  match s with
  | EmptyString => EmptyString
  | String c s' =>
      match rstrip s' with
      | EmptyString => if isspace c then EmptyString else String c EmptyString
      | r => String c r
      end
  end.

(** [s.strip()] *)
Definition strip (s : string) : string := rstrip (lstrip s).

(** [re.sub(r'\s+', ' ', s)]: every maximal run of whitespace becomes one
    space.  [in_run] tells that the previous character was whitespace,
    that is, that the space of the current run is already written. *)
Fixpoint sub_spaces (in_run : bool) (s : string) : string :=
  match s with
  | EmptyString => EmptyString
  | String c s' =>
      if isspace c
      then (if in_run then sub_spaces true s'
            else String " " (sub_spaces true s'))
      else String c (sub_spaces false s')
  end.

(** [s.startswith(p)] *)
Fixpoint startswith (p s : string) : bool :=
  match p, s with
  | EmptyString, _ => true
  | String _ _, EmptyString => false
  | String a p', String b s' => if Ascii.eqb a b then startswith p' s' else false
  end.

(** [needle in hay] on strings. *)
Fixpoint contains (needle hay : string) : bool :=
  startswith needle hay
  || match hay with
     | EmptyString => false
     | String _ hay' => contains needle hay'
     end.

(** [sep.join(l)] *)
Fixpoint join (sep : string) (l : list string) : string :=
  match l with
  | [] => EmptyString
  | [x] => x
  | x :: l' => x +:+ sep +:+ join sep l'
  end.

(** [str(n)] for an [int]. *)
Definition str_int (z : Z) : string := NilZero.string_of_int (Z.to_int z).

(** [not s], the truth value of a string negated. *)
Definition is_empty (s : string) : bool :=
  match s with EmptyString => true | _ => false end.

End Py.

(** ** Cells, rows and data frames *)

Inductive cell :=
| NaN                 (* a missing value: [pd.isna] holds *)
| Str (s : string)
| Int (z : Z).

#[global] Instance cell_eq_dec : EqDecision cell.
Proof. solve_decision. Defined.

(** [pd.isna(v)] *)
Definition isna (v : cell) : bool :=
  match v with NaN => true | _ => false end.

(** [str(v)] *)
Definition str (v : cell) : string :=
  match v with
  | NaN => "nan"
  | Str s => s
  | Int z => Py.str_int z
  end.

(** [clean_and_normalize_text] *)
Definition clean_and_normalize_text (text : cell) : string :=
  if isna text then ""
  else
    let text_str := Py.strip (str text) in
    let text_str := Py.sub_spaces false text_str in
    text_str.

(** A column label, read from a header cell: a text or an integer. *)
Inductive label :=
| Text (s : string)
| Number (z : Z).

#[global] Instance label_eq_dec : EqDecision label.
Proof. solve_decision. Defined.

#[global] Instance label_countable : Countable label :=
  inj_countable'
    (λ l, match l with Text s => inl s | Number z => inr z end)
    (λ x, match x with inl s => Text s | inr z => Number z end)
    (λ l, match l with Text _ => eq_refl | Number _ => eq_refl end).

(** A row is a [Series] indexed by the column labels. *)
Abbreviation Series := (gmap label cell).

Record DataFrame := {
  columns : list label;
  rows : list Series
}.

(** [s in df.columns] for a text [s]: the text is one of the labels. *)
#[global] Instance text_elem_of : ElemOf string (list label) :=
  λ s labels, Text s ∈ labels.

#[global] Instance text_elem_of_dec (s : string) (labels : list label) :
  Decision (s ∈ labels) := decide (Text s ∈ labels).

(** [pd.DataFrame()] *)
Definition empty_frame : DataFrame := {| columns := []; rows := [] |}.

(** [len(df)] *)
Definition len (df : DataFrame) : nat := length (rows df).

(** [df.empty]: one of the two axes has length 0. *)
Definition empty (df : DataFrame) : bool :=
  (length (rows df) =? 0) || (length (columns df) =? 0).

(** The cell of a row under a label of the frame. *)
Definition cell_at (label : string) (row : Series) : cell :=
  default NaN (row !! Text label).

(** A match, the 4-tuple
    [(assignment_row_idx, memo_row_idx, assignment_value, memo_value)]. *)
Record Match := mkMatch {
  assign_idx : nat;
  memo_idx : nat;
  assign_val : cell;
  memo_val : cell
}.

#[global] Instance Match_eq_dec : EqDecision Match.
Proof. solve_decision. Defined.

(** ** Effects: exceptions and the logger *)

Inductive exn :=
| KeyError (key : string)
| IndexError
| ZeroDivisionError
| TypeError (item : nat).   (* [str.join]: the item that is not a [str] *)

(** [str(e)] *)
Definition str_exn (e : exn) : string :=
  match e with
  | KeyError key => "'" +:+ key +:+ "'"
  | IndexError => "single positional indexer is out-of-bounds"
  | ZeroDivisionError => "division by zero"
  | TypeError item =>
      "sequence item " +:+ Py.str_int (Z.of_nat item)
      +:+ ": expected str instance, int found"
  end.

Inductive result (A : Type) :=
| Ok (a : A)
| Raise (e : exn).
Arguments Ok {A} a.
Arguments Raise {A} e.

Inductive level := DEBUG | INFO | WARNING | ERROR.

(** The records the handlers have written so far. *)
Definition Log := list (level * string).

(** A computation reads and extends the log, and returns or raises. *)
Definition M (A : Type) : Type := Log → result A * Log.

#[global] Instance M_ret : MRet M := λ A a lg, (Ok a, lg).

#[global] Instance M_bind : MBind M := λ A B f m lg,
  match m lg with
  | (Ok a, lg') => f a lg'
  | (Raise e, lg') => (Raise e, lg')
  end.

Definition raise {A} (e : exn) : M A := λ lg, (Raise e, lg).

(** [try: body except Exception as e: handler(e)] *)
Definition try_except {A} (body : M A) (handler : exn → M A) : M A := λ lg,
  match body lg with
  | (Ok a, lg') => (Ok a, lg')
  | (Raise e, lg') => handler e lg'
  end.

(** [logging.basicConfig(level=logging.INFO)]: a record below [INFO] is
    dropped, the others are appended. *)
Definition enabled (l : level) : bool :=
  match l with DEBUG => false | _ => true end.

Definition log (l : level) (msg : string) : M unit := λ lg,
  (Ok tt, if enabled l then lg ++ [(l, msg)] else lg).

(** [for x in l: body], the variables the body assigns being [s];
    [continue] is a body that returns [s] as it is. *)
Fixpoint for_each {X S : Type} (l : list X) (body : X → S → M S) (s : S) : M S :=
  match l with
  | [] => mret s
  | x :: l' => s' ← body x s; for_each l' body s'
  end.

(** The value a computation returns (or the exception it raises) from a
    given state of the log. *)
Definition run {A} (m : M A) (lg : Log) : result A := (m lg).1.

(** ** Access to a frame *)

(** [row[label]] for a row of a frame with the given columns. *)
Definition getitem (cols : list label) (row : Series) (label : string) : M cell :=
  if decide (label ∈ cols) then mret (cell_at label row)
  else raise (KeyError label).

(** [df[label]], a column. *)
Definition column (df : DataFrame) (label : string) : M (list cell) :=
  if decide (label ∈ columns df) then mret (cell_at label <$> rows df)
  else raise (KeyError label).

(** [df.iloc[i]] *)
Definition iloc (df : DataFrame) (i : nat) : M Series :=
  match rows df !! i with
  | Some row => mret row
  | None => raise IndexError
  end.

(** [df.iloc[i][label]] *)
Definition iloc_at (df : DataFrame) (i : nat) (label : string) : M cell :=
  row ← iloc df i; getitem (columns df) row label.

(** [str(n)] for a length or an index. *)
Definition str_nat (n : nat) : string := Py.str_int (Z.of_nat n).

(** ** The matcher *)

(** A row of [df_clean], as far as the loops read it: the two columns
    [Assignment_clean] and [Memo Line_clean]. *)
Record CleanRow := {
  Assignment_clean : string;
  Memo_Line_clean : string
}.

(** [df.iterrows()]: the rows with their labels, here their positions. *)
Definition iterrows {A} (l : list A) : list (nat * A) :=
  zip (seq 0 (length l)) l.

(** The body of the inner loop of [find_assignment_matches]. *)
Definition memo_body (df : DataFrame) (assign_idx : nat) (assignment_val : string)
    (memo : nat * CleanRow) (matches : list Match) : M (list Match) :=
  let '(memo_idx, memo_row) := memo in
  if assign_idx =? memo_idx then mret matches
  else
    let memo_val := Memo_Line_clean memo_row in
    if Py.is_empty memo_val then mret matches
    else if Py.contains (Py.lower assignment_val) (Py.lower memo_val) then
      a ← iloc_at df assign_idx "Assignment";
      m ← iloc_at df memo_idx "Memo Line";
      _ ← log INFO ("Match found: '" +:+ assignment_val +:+ "' in '" +:+ memo_val
                    +:+ "' (rows " +:+ str_nat assign_idx +:+ "-"
                    +:+ str_nat memo_idx +:+ ")");
      mret (matches ++ [mkMatch assign_idx memo_idx a m])
    else mret matches.

(** The body of its outer loop. *)
Definition assignment_body (df : DataFrame) (df_clean : list CleanRow)
    (assignment : nat * CleanRow) (matches : list Match) : M (list Match) :=
  let '(assign_idx, assignment_row) := assignment in
  let assignment_val := Assignment_clean assignment_row in
  if Py.is_empty assignment_val then mret matches
  else
    _ ← log DEBUG ("Checking assignment: '" +:+ assignment_val +:+ "' (row "
                   +:+ str_nat assign_idx +:+ ")");
    for_each (iterrows df_clean) (memo_body df assign_idx assignment_val) matches.

(** [find_assignment_matches] *)
Definition find_assignment_matches (df : DataFrame) : M (list Match) :=
  a_col ← column df "Assignment";
  m_col ← column df "Memo Line";
  let df_clean :=
    zip_with Build_CleanRow (clean_and_normalize_text <$> a_col)
                            (clean_and_normalize_text <$> m_col) in
  _ ← log INFO ("Starting match process with " +:+ str_nat (length df_clean)
                +:+ " rows");
  matches ← for_each (iterrows df_clean) (assignment_body df df_clean) [];
  _ ← log INFO ("Total matches found: " +:+ str_nat (length matches));
  mret matches.

(** ** The output builder *)

(** [(min(assign_idx, memo_idx), max(assign_idx, memo_idx))] *)
Definition pair_key (mt : Match) : nat * nat :=
  (assign_idx mt `min` memo_idx mt, assign_idx mt `max` memo_idx mt).

(** The body of the loop of [create_filtered_output]; the loop assigns
    [filtered_rows] and [processed_pairs]. *)
Definition pair_body (df : DataFrame) (mt : Match)
    (st : list Series * gset (nat * nat)) : M (list Series * gset (nat * nat)) :=
  let '(filtered_rows, processed_pairs) := st in
  if decide (pair_key mt ∈ processed_pairs) then mret st
  else
    let processed_pairs := processed_pairs ∪ {[ pair_key mt ]} in
    assign_row ← iloc df (assign_idx mt);
    memo_row ← iloc df (memo_idx mt);
    _ ← log DEBUG ("Added pair: Assignment row " +:+ str_nat (assign_idx mt)
                   +:+ " and Memo row " +:+ str_nat (memo_idx mt));
    mret (filtered_rows ++ [assign_row] ++ [memo_row], processed_pairs).

(** [create_filtered_output].  [pd.DataFrame(filtered_rows)] has the
    columns of [df], every row being a row of [df];
    [reset_index(drop=True)] labels the rows by position. *)
Definition create_filtered_output (df : DataFrame) (matches : list Match) : M DataFrame :=
  match matches with
  | [] =>
      _ ← log WARNING "No matches found, returning empty DataFrame";
      mret empty_frame
  | _ =>
      st ← for_each matches (pair_body df) ([], ∅);
      let filtered_rows := st.1 in
      match filtered_rows with
      | _ :: _ =>
          let result_df := {| columns := columns df; rows := filtered_rows |} in
          _ ← log INFO ("Created filtered output with " +:+ str_nat (len result_df)
                        +:+ " rows (" +:+ str_nat (length filtered_rows / 2)
                        +:+ " pairs)");
          mret result_df
      | [] => mret empty_frame
      end
  end.

(** ** The summary *)

(** The key of [df_info] that [generate_insights] reads. *)
Record DfInfo := {
  total_rows : nat
}.

(** [a / b] on two counts. *)
Definition truediv (a b : nat) : M Q :=
  if b =? 0 then raise ZeroDivisionError
  else mret (Z.of_nat a # Pos.of_nat b)%Q.

(** A [dict] from cells to counts keeps its keys in the order of their
    first insertion. *)
Definition dict := list (cell * nat).

(** [d.get(k, dflt)] *)
Fixpoint dict_get (d : dict) (k : cell) (dflt : nat) : nat :=
  match d with
  | [] => dflt
  | (k', v) :: d' => if decide (k = k') then v else dict_get d' k dflt
  end.

(** [d[k] = v]: a key that is present keeps its place. *)
Fixpoint dict_set (d : dict) (k : cell) (v : nat) : dict :=
  match d with
  | [] => [(k, v)]
  | (k', v') :: d' =>
      if decide (k = k') then (k', v) :: d' else (k', v') :: dict_set d' k v
  end.

(** [max(items, key=lambda x: x[1])] after its first item: a later item
    replaces the best one only when its count is strictly greater. *)
Fixpoint max_from (best : cell * nat) (items : list (cell * nat)) : cell * nat :=
  match items with
  | [] => best
  | x :: items' => max_from (if best.2 <? x.2 then x else best) items'
  end.

(** The loop that fills [assignment_frequency]. *)
Definition count_assignments (matches : list Match) : dict :=
  fold_left (λ freq mt,
               dict_set freq (assign_val mt) (dict_get freq (assign_val mt) 0 + 1))
            matches [].

(** [max(assignment_frequency.items(), key=...) if assignment_frequency
    else ("N/A", 0)] *)
Definition most_frequent_of (assignment_frequency : dict) : cell * nat :=
  match assignment_frequency with
  | [] => (Str "N/A", 0)
  | x :: items => max_from x items
  end.

(** [len(set(l))] *)
Definition count_distinct (l : list cell) : nat := length (remove_dups l).

(** The values that the template of the report is filled with. *)
Record Summary := {
  total_matches : nat;
  unique_assignments : nat;
  unique_memos : nat;
  processing_ratio : Q;        (* total_matches / total_rows *)
  processing_efficiency : Q;   (* ... * 100, printed as a percentage *)
  most_frequent : cell * nat;
  average_matches : Q;         (* total_matches / unique_assignments *)
  total_input_rows : nat;
  output_rows : nat            (* total_matches * 2 *)
}.

(** What [generate_insights] returns: one of its two fixed sentences, or
    the template filled with a summary. *)
Inductive Insights :=
| Sentence (s : string)
| Report (r : Summary).

Definition no_matches_sentence : string :=
  "No matches were found between Assignment and Memo Line columns.".

(** [generate_insights] *)
Definition generate_insights (matches : list Match) (df_info : DfInfo) : M Insights :=
  try_except
    (match matches with
     | [] => mret (Sentence no_matches_sentence)
     | _ =>
         let unique_assignments := count_distinct (assign_val <$> matches) in
         let unique_memos := count_distinct (memo_val <$> matches) in
         let total_matches := length matches in
         let assignment_frequency := count_assignments matches in
         let most_frequent := most_frequent_of assignment_frequency in
         ratio ← truediv total_matches (total_rows df_info);
         average ← truediv total_matches unique_assignments;
         let insights := {|
           total_matches := total_matches;
           unique_assignments := unique_assignments;
           unique_memos := unique_memos;
           processing_ratio := ratio;
           processing_efficiency := (ratio * 100)%Q;
           most_frequent := most_frequent;
           average_matches := average;
           total_input_rows := total_rows df_info;
           output_rows := total_matches * 2
         |} in
         _ ← log INFO "Generated insights summary";
         mret (Report insights)
     end)
    (λ e,
       _ ← log ERROR ("Error generating insights: " +:+ str_exn e);
       mret (Sentence ("Insights generation encountered an error: " +:+ str_exn e))).

(** ** The column check *)

Definition required_columns : list string := ["Assignment"; "Memo Line"].

(** [[col for col in required_columns if col not in df.columns]] *)
Definition missing_columns (df : DataFrame) : list string :=
  filter (λ col, col ∉ columns df) required_columns.

(** The items of [sep.join(labels)], from item [i] on: the texts of the
    labels, or [TypeError] at the first label that is not a [str]. *)
Fixpoint texts_of (i : nat) (labels : list label) : result (list string) :=
  match labels with
  | [] => Ok []
  | Text s :: labels' =>
      match texts_of (S i) labels' with
      | Ok texts => Ok (s :: texts)
      | Raise e => Raise e
      end
  | Number _ :: _ => Raise (TypeError i)
  end.

(** [sep.join(df.columns.tolist())] *)
Definition join_labels (sep : string) (labels : list label) : result string :=
  match texts_of 0 labels with
  | Ok texts => Ok (Py.join sep texts)
  | Raise e => Raise e
  end.

(** [validate_excel_structure] *)
Definition validate_excel_structure (df : DataFrame) : result (bool * string) :=
  if empty df then Ok (false, "The uploaded Excel file is empty.")
  else
    match missing_columns df with
    | _ :: _ =>
        match join_labels ", " (columns df) with
        | Ok available_cols =>
            Ok (false, "Missing required columns: "
                       +:+ Py.join ", " (missing_columns df)
                       +:+ ". Available columns: " +:+ available_cols)
        | Raise e => Raise e
        end
    | [] => Ok (true, "File structure is valid.")
    end.

(** ** The extension check *)

(** [s.rsplit(sep, 1)] for a separator of one character: the text before
    the last separator and the text after it, or [s] alone when it has no
    separator. *)
Fixpoint rsplit1 (sep : ascii) (s : string) : list string :=
  match s with
  | EmptyString => [EmptyString]
  | String c s' =>
      match rsplit1 sep s' with
      | [before; after] => [String c before; after]
      | _ => if Ascii.eqb c sep then [EmptyString; s'] else [s]
      end
  end.

Definition ALLOWED_EXTENSIONS : gset string := {[ "xlsx"; "xls" ]}.

(** [allowed_file]; [and] does not evaluate its right side when the left
    one is false, and [l[1]] raises on a list of one element. *)
Definition allowed_file (filename : string) : result bool :=
  if Py.contains "." filename then
    match rsplit1 "." filename !! 1 with
    | Some extension =>
        Ok (bool_decide (Py.lower extension ∈ ALLOWED_EXTENSIONS))
    | None => Raise IndexError
    end
  else Ok false.

(** * Definitions the properties are stated with *)

(** [s.split()]: the maximal runs of characters that are not whitespace;
    [w] is the run read so far. *)
Fixpoint words_from (w : string) (s : string) : list string :=
  match s with
  | EmptyString => if Py.is_empty w then [] else [w]
  | String c s' =>
      if Py.isspace c
      then (if Py.is_empty w then words_from "" s' else w :: words_from "" s')
      else words_from (w +:+ String c "") s'
  end.

Definition words (s : string) : list string := words_from "" s.

(** A word: not empty, no whitespace in it. *)
Fixpoint no_space (w : string) : bool :=
  match w with
  | EmptyString => true
  | String c w' => negb (Py.isspace c) && no_space w'
  end.

Definition is_word (w : string) : Prop := w ≠ "" ∧ no_space w = true.

(** [needle] occurs in [hay]. *)
Definition substring (needle hay : string) : Prop :=
  ∃ pre suf, hay = pre +:+ needle +:+ suf.

(** Scan order: by assignment row, then by memo row. *)
Definition match_lt (x y : Match) : Prop :=
  assign_idx x < assign_idx y
  ∨ (assign_idx x = assign_idx y ∧ memo_idx x < memo_idx y).

(** The raw cell of a row of [df], missing when there is no such row. *)
Definition raw (df : DataFrame) (label : string) (i : nat) : cell :=
  from_option (cell_at label) NaN (rows df !! i).

(** The rows of [df_clean]. *)
Definition clean_rows (df : DataFrame) : list CleanRow :=
  zip_with Build_CleanRow
    (clean_and_normalize_text <$> (cell_at "Assignment" <$> rows df))
    (clean_and_normalize_text <$> (cell_at "Memo Line" <$> rows df)).

(** What a round of the inner loop of the matcher appends. *)
Definition memo_hits (df : DataFrame) (a : nat) (assignment_val : string)
    (memo : nat * CleanRow) : list Match :=
  if a =? memo.1 then []
  else if Py.is_empty (Memo_Line_clean memo.2) then []
  else if Py.contains (Py.lower assignment_val)
                      (Py.lower (Memo_Line_clean memo.2))
  then [mkMatch a memo.1 (raw df "Assignment" a) (raw df "Memo Line" memo.1)]
  else [].

(** What a round of its outer loop appends. *)
Definition assignment_hits (df : DataFrame) (assignment : nat * CleanRow) : list Match :=
  if Py.is_empty (Assignment_clean assignment.2) then []
  else flat_map (memo_hits df assignment.1 (Assignment_clean assignment.2))
                (iterrows (clean_rows df)).

(** The matches of a complete scan. *)
Definition scan (df : DataFrame) : list Match :=
  flat_map (assignment_hits df) (iterrows (clean_rows df)).

(** The matches that open a pair: no match before them, and no pair key
    of [seen], has their pair key. *)
Fixpoint first_seen (seen : gset (nat * nat)) (matches : list Match) : list Match :=
  match matches with
  | [] => []
  | mt :: rest =>
      if decide (pair_key mt ∈ seen) then first_seen seen rest
      else mt :: first_seen (seen ∪ {[ pair_key mt ]}) rest
  end.

(** The distinct pair keys of a list of matches. *)
Definition pair_keys (matches : list Match) : gset (nat * nat) :=
  list_to_set (pair_key <$> matches).

(** The two rows of a match, the assignment row first. *)
Definition pair_rows (df : DataFrame) (mt : Match) : list (option Series) :=
  [rows df !! assign_idx mt; rows df !! memo_idx mt].

(** Both indices of a match are rows of the frame. *)
Definition in_range (df : DataFrame) (mt : Match) : Prop :=
  assign_idx mt < len df ∧ memo_idx mt < len df.

(** The number of times a text occurs in a list. *)
Definition occurrences (v : cell) (l : list cell) : nat :=
  length (filter (λ x, x = v) l).

(** The distinct texts of a list, each at the place of its first
    occurrence. *)
Definition first_keys (l : list cell) : list cell :=
  fold_left (λ ks v, if decide (v ∈ ks) then ks else ks ++ [v]) l [].

(** The entry of a text in the frequency table of a list. *)
Definition entry (l : list cell) (k : cell) : cell * nat := (k, occurrences k l).

(** The character [c] occurs in [s]. *)
Definition occurs (c : ascii) (s : string) : Prop :=
  ∃ before after, s = before +:+ String c after.

(** Two matches pair the same two rows, one each way round. *)
Definition mutual (matches : list Match) : Prop :=
  ∃ mt1 mt2, mt1 ∈ matches ∧ mt2 ∈ matches
             ∧ assign_idx mt1 = memo_idx mt2 ∧ memo_idx mt1 = assign_idx mt2.

(** What the matcher compares of a cell: its normalized text, in lower
    case. *)
Definition match_key (v : cell) : string :=
  Py.lower (clean_and_normalize_text v).

(** Two rows agree on what the matcher compares. *)
Definition same_keys (row1 row2 : Series) : Prop :=
  match_key (cell_at "Assignment" row1) = match_key (cell_at "Assignment" row2)
  ∧ match_key (cell_at "Memo Line" row1) = match_key (cell_at "Memo Line" row2).

(** The two row indices of a match. *)
Definition indices (mt : Match) : nat * nat := (assign_idx mt, memo_idx mt).

(** Scan order on pairs of indices. *)
Definition pair_lt (p q : nat * nat) : Prop :=
  p.1 < q.1 ∨ (p.1 = q.1 ∧ p.2 < q.2).

(** Row [a] matches in row [m], as far as the compared texts tell. *)
Definition hit (df : DataFrame) (a m : nat) : Prop :=
  ∃ assignment_row memo_row,
    rows df !! a = Some assignment_row ∧ rows df !! m = Some memo_row
    ∧ a ≠ m
    ∧ match_key (cell_at "Assignment" assignment_row) ≠ ""
    ∧ match_key (cell_at "Memo Line" memo_row) ≠ ""
    ∧ substring (match_key (cell_at "Assignment" assignment_row))
                (match_key (cell_at "Memo Line" memo_row)).

(** A text of whitespace only. *)
Definition blank (s : string) : Prop :=
  ∀ c, occurs c s → Py.isspace c = true.

(** The record that the matcher writes for a match. *)
Definition match_record (mt : Match) : level * string :=
  (INFO, "Match found: '" +:+ clean_and_normalize_text (assign_val mt)
         +:+ "' in '" +:+ clean_and_normalize_text (memo_val mt)
         +:+ "' (rows " +:+ str_nat (assign_idx mt) +:+ "-"
         +:+ str_nat (memo_idx mt) +:+ ")").

(** The records that it writes before and after its loops. *)
Definition start_record (n : nat) : level * string :=
  (INFO, "Starting match process with " +:+ str_nat n +:+ " rows").

Definition total_record (n : nat) : level * string :=
  (INFO, "Total matches found: " +:+ str_nat n).

(** ** Example sheets *)

(** A row of a sheet with the two columns. *)
Definition sheet_row (assignment memo : cell) : Series :=
  <[Text "Assignment" := assignment]> (<[Text "Memo Line" := memo]> ∅).

Definition sheet (l : list (cell * cell)) : DataFrame :=
  {| columns := [Text "Assignment"; Text "Memo Line"];
     rows := (λ r, sheet_row r.1 r.2) <$> l |}.

(** Three rows, the first and the last naming the same invoice. *)
Definition invoices : DataFrame :=
  sheet [ (Str "INV-1", Str "ref INV-1 paid");
          (Str "", Str "unrelated");
          (Str "INV-1", Str "also INV-1 here") ].

(** Three rows that all name the same order, in both columns. *)
Definition echoes : DataFrame :=
  sheet [ (Str "PO-7", Str "paid PO-7");
          (Str "PO-7", Str "PO-7 again");
          (Str "po-7", Str "see PO-7") ].

(** A sheet with a row, and without the column "Assignment". *)
Definition no_assignment : DataFrame :=
  {| columns := [Text "Ref"; Text "Memo Line"]; rows := [∅] |}.

(** The three invoices typed in another way: other letter case, other
    whitespace, and a missing cell for the empty one. *)
Definition invoices_retyped : DataFrame :=
  sheet [ (Str "  inv-1 ", Str "REF  INV-1 paid");
          (NaN, Str "Unrelated ");
          (Str "Inv-1", Str "also inv-1   here") ].

(** A sheet with a header and no row under it. *)
Definition header_only : DataFrame :=
  {| columns := [Text "Memo Line"; Text "Amount"]; rows := [] |}.

(** A sheet with a row, without the column "Assignment", and with a
    number in its header. *)
Definition numbered_header : DataFrame :=
  {| columns := [Text "Ref"; Number 2024; Text "Memo Line"]; rows := [∅] |}.

(** * Properties *)

(** ** The normalizer *)

Section Strings.

Lemma app_cons c (s t : string) : String c s +:+ t = String c (s +:+ t).
Proof. reflexivity. Qed.

Lemma app_empty_r (s : string) : s +:+ "" = s.
Proof. induction s as [|c s IH]; [done|]. by rewrite app_cons, IH. Qed.

Lemma app_assoc_s (s t u : string) : (s +:+ t) +:+ u = s +:+ t +:+ u.
Proof. induction s as [|c s IH]; [done|]. by rewrite !app_cons, IH. Qed.

Lemma app_snoc_cons (w : string) c (t : string) :
  (w +:+ String c "") +:+ t = w +:+ String c t.
Proof. by rewrite app_assoc_s. Qed.

Lemma snoc_not_empty (w : string) c : Py.is_empty (w +:+ String c "") = false.
Proof. by destruct w. Qed.

Lemma is_empty_true (s : string) : Py.is_empty s = true ↔ s = "".
Proof. by destruct s. Qed.

Lemma is_empty_false (s : string) : Py.is_empty s = false ↔ s ≠ "".
Proof. by destruct s. Qed.

(** [join] with a first word in hand. *)
Lemma join_cons sep (w : string) (l : list string) :
  Py.join sep (w :: l) = match l with [] => w | _ => w +:+ sep +:+ Py.join sep l end.
Proof. by destruct l. Qed.

Lemma rstrip_space c (s : string) :
  Py.isspace c = true →
  Py.rstrip (String c s)
  = match Py.rstrip s with "" => "" | r => String c r end.
Proof. intros Hc. simpl. by rewrite Hc. Qed.

Lemma rstrip_nonspace c (s : string) :
  Py.isspace c = false → Py.rstrip (String c s) = String c (Py.rstrip s).
Proof. intros Hc. simpl. rewrite Hc. by destruct (Py.rstrip s). Qed.

(** A run in hand always ends up as a word. *)
Lemma words_from_run (w s : string) :
  w ≠ "" → ∃ w' ws, words_from w s = w' :: ws.
Proof.
  revert w. induction s as [|c s IH]; intros w Hw.
  - simpl. apply is_empty_false in Hw as ->. eauto.
  - simpl. destruct (Py.isspace c).
    + apply is_empty_false in Hw as ->. eauto.
    + apply IH. by destruct w.
Qed.

(** Nothing is left of [s] by [rstrip] exactly when [s] has no word. *)
Lemma words_from_nil (s : string) :
  words_from "" s = [] ↔ Py.rstrip s = "".
Proof.
  induction s as [|c s IH]; [done|].
  destruct (Py.isspace c) eqn:Hc.
  - rewrite rstrip_space by done. simpl. rewrite Hc. simpl.
    rewrite IH. by destruct (Py.rstrip s).
  - rewrite rstrip_nonspace by done. simpl. rewrite Hc.
    change ("" +:+ String c "") with (String c "").
    destruct (words_from_run (String c "") s) as (w' & ws & ->); done.
Qed.

(** The words of [s] with one space between them, read off [s] from
    inside a word ([w] in hand) and from inside a run of whitespace. *)
Lemma join_words_from (s : string) :
  (∀ w, w ≠ "" →
     Py.join " " (words_from w s) = w +:+ Py.sub_spaces false (Py.rstrip s))
  ∧ Py.join " " (words_from "" s) = Py.sub_spaces true (Py.rstrip s).
Proof.
  induction s as [|c s [IHw IHe]]; split.
  - intros w Hw. simpl. apply is_empty_false in Hw as ->.
    by rewrite app_empty_r.
  - done.
  - intros w Hw. destruct (Py.isspace c) eqn:Hc.
    + rewrite rstrip_space by done. simpl. rewrite Hc.
      apply is_empty_false in Hw as ->. rewrite join_cons.
      destruct (words_from "" s) as [|w1 ws] eqn:Hws.
      * apply words_from_nil in Hws as ->. by rewrite app_empty_r.
      * rewrite IHe. destruct (Py.rstrip s) as [|d r] eqn:Hr.
        { apply words_from_nil in Hr. congruence. }
        simpl. by rewrite Hc.
    + rewrite rstrip_nonspace by done. simpl. rewrite Hc.
      rewrite IHw by (by destruct w). by rewrite app_snoc_cons.
  - destruct (Py.isspace c) eqn:Hc.
    + rewrite rstrip_space by done. simpl. rewrite Hc. simpl. rewrite IHe.
      destruct (Py.rstrip s) as [|d r]; [done|]. simpl. by rewrite Hc.
    + rewrite rstrip_nonspace by done. simpl. rewrite Hc.
      change ("" +:+ String c "") with (String c "").
      by rewrite (IHw (String c "")).
Qed.

(** Trimming on the left before collapsing amounts to collapsing from
    inside a run. *)
Lemma sub_spaces_strip (s : string) :
  Py.sub_spaces false (Py.strip s) = Py.sub_spaces true (Py.rstrip s).
Proof.
  unfold Py.strip. induction s as [|c s IH]; [done|].
  destruct (Py.isspace c) eqn:Hc.
  - rewrite rstrip_space by done. simpl Py.lstrip. rewrite Hc, IH.
    destruct (Py.rstrip s) as [|d r]; [done|]. simpl. by rewrite Hc.
  - simpl Py.lstrip. rewrite Hc. rewrite rstrip_nonspace by done.
    simpl. by rewrite Hc.
Qed.

Lemma normalize_join_words (s : string) :
  Py.sub_spaces false (Py.strip s) = Py.join " " (words s).
Proof.
  rewrite sub_spaces_strip. symmetry. apply join_words_from.
Qed.

Lemma no_space_app (u v : string) :
  no_space (u +:+ v) = no_space u && no_space v.
Proof.
  induction u as [|c u IH]; [done|].
  rewrite app_cons. simpl. rewrite IH. by rewrite andb_assoc.
Qed.

Lemma words_from_is_word (s w : string) :
  no_space w = true → Forall is_word (words_from w s).
Proof.
  revert w. induction s as [|c s IH]; intros w Hw; simpl.
  - destruct w; [constructor|]. by repeat constructor.
  - destruct (Py.isspace c) eqn:Hc.
    + destruct w; simpl; [by apply IH|].
      constructor; [done|by apply IH].
    + apply IH. rewrite no_space_app, Hw. simpl. by rewrite Hc.
Qed.

(** Reading a word [u] in front of [t] puts it in hand. *)
Lemma words_from_app_word (u w t : string) :
  no_space u = true → words_from w (u +:+ t) = words_from (w +:+ u) t.
Proof.
  revert w. induction u as [|c u IH]; intros w Hu.
  - by rewrite app_empty_r.
  - simpl in Hu. apply andb_true_iff in Hu as [Hc Hu].
    apply negb_true_iff in Hc. rewrite app_cons. simpl. rewrite Hc.
    rewrite IH by done. by rewrite app_snoc_cons.
Qed.

(** Words joined by single spaces are read back as they are. *)
Lemma words_join (ws : list string) :
  Forall is_word ws → words (Py.join " " ws) = ws.
Proof.
  unfold words. induction 1 as [|w ws [Hne Hw] Hws IH]; [done|].
  rewrite join_cons. destruct ws as [|w2 ws].
  - pose proof (words_from_app_word w "" "" Hw) as E.
    rewrite app_empty_r in E. rewrite E. simpl. by destruct w.
  - rewrite words_from_app_word by done.
    change ("" +:+ w) with w. revert IH.
    generalize (Py.join " " (w2 :: ws)). intros j IH.
    change (" " +:+ j) with (String " " j). simpl.
    apply is_empty_false in Hne as ->. by rewrite IH.
Qed.

End Strings.

(** C4.  The normalizer is a total function: a missing cell gives the empty
    string; any other cell gives the words of its string form (its
    maximal runs of non-whitespace characters, none of them empty) with
    exactly one space between two consecutive words, so that nothing is
    left at either end and every run of whitespace inside has become one
    space; the result has the words of the string form, and normalizing it
    again changes nothing. *)
Theorem clean_and_normalize_text_spec (v : cell) :
  clean_and_normalize_text NaN = ""
  ∧ clean_and_normalize_text v
    = (if isna v then "" else Py.join " " (words (str v)))
  ∧ Forall is_word (words (str v))
  ∧ (if isna v then True
     else words (clean_and_normalize_text v) = words (str v))
  ∧ clean_and_normalize_text (Str (clean_and_normalize_text v))
    = clean_and_normalize_text v.
Proof.
  assert (Hw : ∀ s, Forall is_word (words s))
    by (intros s; by apply words_from_is_word).
  assert (Hn : ∀ s, clean_and_normalize_text (Str s) = Py.join " " (words s))
    by (intros s; apply normalize_join_words).
  split; [done|]. split; [|split; [done|split]].
  - destruct v as [|s|z]; [done|apply Hn|apply normalize_join_words].
  - destruct v as [|s|z]; [done| |].
    + rewrite Hn. by apply words_join.
    + unfold clean_and_normalize_text. simpl isna. cbv iota.
      rewrite normalize_join_words. by apply words_join.
  - rewrite Hn. destruct v as [|s|z]; [done| |].
    + rewrite Hn. by rewrite words_join.
    + unfold clean_and_normalize_text at 1 2. simpl isna. cbv iota.
      rewrite normalize_join_words. by rewrite words_join.
Qed.

(** ** Loops *)

Section Loops.

Context {X A : Type}.

(** A loop whose every round appends to the list it builds, whatever it
    logs, appends round after round. *)
Lemma for_each_appends (f : X → list A) (body : X → list A → M (list A))
    (l : list X) :
  (∀ x, x ∈ l → ∀ s lg, ∃ lg', body x s lg = (Ok (s ++ f x), lg')) →
  ∀ s lg, ∃ lg', for_each l body s lg = (Ok (s ++ flat_map f l), lg').
Proof.
  induction l as [|x l IH]; intros Hbody s lg.
  - exists lg. simpl. by rewrite app_nil_r.
  - destruct (Hbody x (list_elem_of_here _ _) s lg) as [lg1 H1].
    destruct (IH (λ y Hy, Hbody y (list_elem_of_further _ _ _ Hy))
                (s ++ f x) lg1) as [lg2 H2].
    exists lg2. simpl. unfold mbind, M_bind. rewrite H1, H2.
    by rewrite <- app_assoc.
Qed.

Lemma for_each_cons {S : Type} (body : X → S → M S) (x : X) (l : list X)
    (s : S) (lg : Log) :
  for_each (x :: l) body s lg
  = match body x s lg with
    | (Ok s', lg') => for_each l body s' lg'
    | (Raise e, lg') => (Raise e, lg')
    end.
Proof. reflexivity. Qed.

Lemma elem_of_flat_map (f : X → list A) (l : list X) (y : A) :
  y ∈ flat_map f l ↔ ∃ x, x ∈ l ∧ y ∈ f x.
Proof.
  rewrite list_elem_of_In, in_flat_map.
  by setoid_rewrite list_elem_of_In.
Qed.

(** [iterrows] pairs every element with its position. *)
Lemma elem_of_iterrows (l : list X) (i : nat) (x : X) :
  (i, x) ∈ iterrows l ↔ l !! i = Some x.
Proof.
  unfold iterrows. rewrite elem_of_lookup_zip_with. split.
  - intros (j & i' & x' & [= -> ->] & Hi & Hx).
    apply lookup_seq in Hi as [-> _]. done.
  - intros Hx. exists i, i, x. split; [done|]. split; [|done].
    apply lookup_seq. split; [done|]. by eapply lookup_lt_Some.
Qed.

End Loops.

(** ** The matcher *)

Section Matcher.

Variable df : DataFrame.

Lemma clean_rows_lookup (i : nat) (r : CleanRow) :
  clean_rows df !! i = Some r ↔
  ∃ row, rows df !! i = Some row
         ∧ r = {| Assignment_clean :=
                    clean_and_normalize_text (cell_at "Assignment" row);
                  Memo_Line_clean :=
                    clean_and_normalize_text (cell_at "Memo Line" row) |}.
Proof.
  unfold clean_rows. rewrite lookup_zip_with_Some.
  setoid_rewrite list_lookup_fmap. setoid_rewrite list_lookup_fmap.
  destruct (rows df !! i) as [row|]; simpl; split.
  - intros (x & y & -> & [= <-] & [= <-]). eauto.
  - intros (row' & [= <-] & ->). eauto.
  - intros (x & y & _ & [=] & _).
  - intros (row' & [=] & _).
Qed.

Hypothesis assignment_column : "Assignment" ∈ columns df.
Hypothesis memo_column : "Memo Line" ∈ columns df.

Lemma iloc_at_ok (i : nat) (label : string) (lg : Log) :
  label ∈ columns df → i < len df →
  iloc_at df i label lg = (Ok (raw df label i), lg).
Proof.
  intros Hl Hi. unfold iloc_at, iloc, raw, len in *.
  destruct (lookup_lt_is_Some_2 (rows df) i Hi) as [row Hrow].
  unfold mbind, M_bind, getitem. rewrite Hrow. simpl.
  by rewrite decide_True.
Qed.

Lemma memo_body_appends (a : nat) (assignment_val : string)
    (memo : nat * CleanRow) (s : list Match) (lg : Log) :
  a < len df → memo.1 < len df →
  ∃ lg', memo_body df a assignment_val memo s lg
         = (Ok (s ++ memo_hits df a assignment_val memo), lg').
Proof.
  intros Ha Hm. destruct memo as [m memo_row]. simpl in Hm.
  unfold memo_body, memo_hits. simpl.
  destruct (a =? m); [exists lg; by rewrite app_nil_r|].
  destruct (Py.is_empty _); [exists lg; by rewrite app_nil_r|].
  destruct (Py.contains _ _); [|exists lg; by rewrite app_nil_r].
  unfold mbind, M_bind. rewrite !iloc_at_ok by done. simpl. eauto.
Qed.

Lemma iterrows_clean_lt (i : nat) (r : CleanRow) :
  (i, r) ∈ iterrows (clean_rows df) → i < len df.
Proof.
  rewrite elem_of_iterrows, clean_rows_lookup. intros (row & Hrow & _).
  by eapply lookup_lt_Some.
Qed.

Lemma assignment_body_appends (assignment : nat * CleanRow)
    (s : list Match) (lg : Log) :
  assignment ∈ iterrows (clean_rows df) →
  ∃ lg', assignment_body df (clean_rows df) assignment s lg
         = (Ok (s ++ assignment_hits df assignment), lg').
Proof.
  destruct assignment as [a assignment_row]. intros Ha.
  apply iterrows_clean_lt in Ha.
  unfold assignment_body, assignment_hits. simpl.
  destruct (Py.is_empty _); [exists lg; by rewrite app_nil_r|].
  unfold mbind, M_bind. simpl.
  apply for_each_appends. intros [m memo_row] Hm s' lg'.
  apply memo_body_appends; [done|]. by eapply iterrows_clean_lt.
Qed.

(** With its two columns in the frame the matcher returns, and returns
    the matches of the scan. *)
Lemma find_assignment_matches_scan (lg : Log) :
  ∃ lg', find_assignment_matches df lg = (Ok (scan df), lg').
Proof.
  unfold find_assignment_matches, column.
  rewrite !decide_True by done. unfold mbind at 1 2, M_bind at 1 2.
  simpl. fold (clean_rows df).
  unfold mbind at 1, M_bind at 1. simpl.
  unfold mbind at 1, M_bind at 1.
  edestruct (for_each_appends (assignment_hits df)
               (assignment_body df (clean_rows df)) (iterrows (clean_rows df)))
    as [lg1 H1].
  { intros x Hx s lg0. by apply assignment_body_appends. }
  rewrite H1. simpl. eauto.
Qed.

End Matcher.

(** ** Substrings *)

Lemma startswith_spec (p s : string) :
  Py.startswith p s = true ↔ ∃ suf, s = p +:+ suf.
Proof.
  revert s. induction p as [|a p IH]; intros s.
  - split; [by exists s|done].
  - destruct s as [|b s]; simpl.
    + split; [done|]. by intros [suf H].
    + destruct (Ascii.eqb_spec a b) as [->|Hab].
      * rewrite IH. split.
        -- intros [suf ->]. by exists suf.
        -- intros [suf H]. rewrite app_cons in H. injection H as ->. by exists suf.
      * split; [done|]. intros [suf H]. rewrite app_cons in H. congruence.
Qed.

Lemma contains_spec (needle hay : string) :
  Py.contains needle hay = true ↔ substring needle hay.
Proof.
  unfold substring. induction hay as [|c hay IH].
  - simpl. rewrite orb_false_r, startswith_spec. split.
    + intros [suf H]. by exists "", suf.
    + intros (pre & suf & H). destruct pre; [by exists suf|done].
  - simpl. rewrite orb_true_iff, startswith_spec, IH. split.
    + intros [[suf H]|(pre & suf & ->)].
      * by exists "", suf.
      * by exists (String c pre), suf.
    + intros (pre & suf & H). destruct pre as [|d pre].
      * left. by exists suf.
      * right. rewrite app_cons in H. injection H as -> ->. by exists pre, suf.
Qed.

(** ** Order of the matches *)

Section Sorted.

Context {X A : Type} (R : A → A → Prop).

Lemma iterrows_from_sorted (l : list X) (k : nat) :
  StronglySorted (λ p q : nat * X, p.1 < q.1) (zip (seq k (length l)) l).
Proof.
  revert k. induction l as [|x l IH]; intros k; simpl; constructor.
  - apply IH.
  - apply Forall_forall. intros [j y] Hj%elem_of_zip_l.
    apply elem_of_seq in Hj. simpl. lia.
Qed.

Lemma iterrows_sorted (l : list X) :
  StronglySorted (λ p q : nat * X, p.1 < q.1) (iterrows l).
Proof. apply iterrows_from_sorted. Qed.

(** Rounds taken in increasing order of their index, each appending a
    sorted list that lies below what the later rounds append, build a
    sorted list. *)
Lemma flat_map_sorted (f : nat * X → list A) (l : list (nat * X)) :
  StronglySorted (λ p q, p.1 < q.1) l →
  (∀ p, p ∈ l → StronglySorted R (f p)) →
  (∀ p q e e', p ∈ l → q ∈ l → p.1 < q.1 → e ∈ f p → e' ∈ f q → R e e') →
  StronglySorted R (flat_map f l).
Proof.
  induction 1 as [|p l Hl IH Hp]; intros Hin Hcross; simpl.
  - constructor.
  - apply StronglySorted_app_2.
    + intros e e' He (q & Hq & He')%elem_of_flat_map.
      apply (Hcross p q); [left|by right| |done|done].
      rewrite Forall_forall in Hp. by apply Hp.
    + apply Hin. left.
    + apply IH.
      * intros q Hq. apply Hin. by right.
      * intros q q' e e' Hq Hq'. apply Hcross; by right.
Qed.

Lemma sorted_lookup (l : list A) (i j : nat) (x y : A) :
  StronglySorted R l → i < j → l !! i = Some x → l !! j = Some y → R x y.
Proof.
  intros Hl. revert i j. induction Hl as [|z l Hl IH Hz]; intros i j Hij Hx Hy.
  - done.
  - destruct j as [|j]; [lia|]. simpl in Hy. destruct i as [|i].
    + injection Hx as ->. rewrite Forall_forall in Hz.
      by eapply Hz, list_elem_of_lookup_2.
    + simpl in Hx. apply (IH i j); [lia|done|done].
Qed.

End Sorted.

Section MatcherFacts.

Variable df : DataFrame.

Lemma elem_of_memo_hits (a : nat) (assignment_val : string)
    (memo : nat * CleanRow) (mt : Match) :
  mt ∈ memo_hits df a assignment_val memo ↔
  a ≠ memo.1 ∧ Memo_Line_clean memo.2 ≠ ""
  ∧ Py.contains (Py.lower assignment_val) (Py.lower (Memo_Line_clean memo.2)) = true
  ∧ mt = mkMatch a memo.1 (raw df "Assignment" a) (raw df "Memo Line" memo.1).
Proof.
  unfold memo_hits. destruct (Nat.eqb_spec a memo.1) as [E|E].
  { rewrite elem_of_nil. by intuition. }
  destruct (Py.is_empty _) eqn:Hm.
  { apply is_empty_true in Hm. rewrite elem_of_nil. by intuition. }
  apply is_empty_false in Hm.
  destruct (Py.contains _ _).
  - rewrite list_elem_of_singleton. by intuition.
  - rewrite elem_of_nil. by intuition.
Qed.

Lemma elem_of_assignment_hits (assignment : nat * CleanRow) (mt : Match) :
  mt ∈ assignment_hits df assignment ↔
  Assignment_clean assignment.2 ≠ ""
  ∧ ∃ memo, memo ∈ iterrows (clean_rows df)
      ∧ mt ∈ memo_hits df assignment.1 (Assignment_clean assignment.2) memo.
Proof.
  unfold assignment_hits. destruct (Py.is_empty _) eqn:Ha.
  - apply is_empty_true in Ha. rewrite elem_of_nil. by intuition.
  - apply is_empty_false in Ha. rewrite elem_of_flat_map. by intuition.
Qed.

Lemma assignment_hits_sorted (assignment : nat * CleanRow) :
  StronglySorted match_lt (assignment_hits df assignment).
Proof.
  unfold assignment_hits. destruct (Py.is_empty _); [constructor|].
  apply flat_map_sorted.
  - apply iterrows_sorted.
  - intros p _. unfold memo_hits.
    repeat (destruct (_ : bool); try constructor); by repeat constructor.
  - intros p q e e' _ _ Hpq He He'.
    apply elem_of_memo_hits in He as (_ & _ & _ & ->).
    apply elem_of_memo_hits in He' as (_ & _ & _ & ->).
    right. simpl. done.
Qed.

Lemma scan_sorted : StronglySorted match_lt (scan df).
Proof.
  apply flat_map_sorted.
  - apply iterrows_sorted.
  - intros p _. apply assignment_hits_sorted.
  - intros p q e e' _ _ Hpq He He'.
    apply elem_of_assignment_hits in He as (_ & memo & _ & He).
    apply elem_of_memo_hits in He as (_ & _ & _ & ->).
    apply elem_of_assignment_hits in He' as (_ & memo' & _ & He').
    apply elem_of_memo_hits in He' as (_ & _ & _ & ->).
    left. simpl. done.
Qed.

Lemma match_lt_irrefl (x : Match) : ¬ match_lt x x.
Proof. unfold match_lt. lia. Qed.

Lemma sorted_NoDup (l : list Match) : StronglySorted match_lt l → NoDup l.
Proof.
  induction 1 as [|x l Hl IH Hx]; constructor; [|done].
  intros Hin. rewrite Forall_forall in Hx.
  by apply (match_lt_irrefl x), Hx.
Qed.

(** The matches of a scan, one by one. *)
Lemma elem_of_scan (a m : nat) (x y : cell) :
  mkMatch a m x y ∈ scan df ↔
  ∃ assignment_row memo_row,
    rows df !! a = Some assignment_row ∧ rows df !! m = Some memo_row
    ∧ a ≠ m
    ∧ clean_and_normalize_text (cell_at "Assignment" assignment_row) ≠ ""
    ∧ clean_and_normalize_text (cell_at "Memo Line" memo_row) ≠ ""
    ∧ substring
        (Py.lower (clean_and_normalize_text (cell_at "Assignment" assignment_row)))
        (Py.lower (clean_and_normalize_text (cell_at "Memo Line" memo_row)))
    ∧ x = cell_at "Assignment" assignment_row
    ∧ y = cell_at "Memo Line" memo_row.
Proof.
  unfold scan. rewrite elem_of_flat_map. split.
  - intros ([a' ra] & Ha & Hmt).
    apply elem_of_assignment_hits in Hmt as (Hne & [m' rm] & Hm & Hmt).
    apply elem_of_memo_hits in Hmt as (Ham & Hme & Hc & Heq).
    simpl in *. injection Heq as -> -> -> ->.
    apply elem_of_iterrows, clean_rows_lookup in Ha as (row_a & Hra & ->).
    apply elem_of_iterrows, clean_rows_lookup in Hm as (row_m & Hrm & ->).
    simpl in *. exists row_a, row_m. unfold raw. rewrite Hra, Hrm. simpl.
    apply contains_spec in Hc. done.
  - intros (row_a & row_m & Hra & Hrm & Ham & Hne & Hme & Hc & -> & ->).
    eexists (a, _). split.
    { apply elem_of_iterrows, clean_rows_lookup. eauto. }
    apply elem_of_assignment_hits. simpl. split; [done|].
    eexists (m, _). split.
    { apply elem_of_iterrows, clean_rows_lookup. eauto. }
    apply elem_of_memo_hits. simpl. unfold raw. rewrite Hra, Hrm. simpl.
    by apply contains_spec in Hc.
Qed.

End MatcherFacts.

(** ** The matcher: results *)

Lemma find_assignment_matches_run (df : DataFrame) (lg : Log) :
  "Assignment" ∈ columns df → "Memo Line" ∈ columns df →
  run (find_assignment_matches df) lg = Ok (scan df).
Proof.
  intros Ha Hm. unfold run.
  destruct (find_assignment_matches_scan df Ha Hm lg) as [lg' ->]. done.
Qed.

(** What the matcher returns does not depend on the log. *)
Lemma find_assignment_matches_result (df : DataFrame) :
  ∃ r, ∀ lg, run (find_assignment_matches df) lg = r.
Proof.
  destruct (decide ("Assignment" ∈ columns df)) as [Ha|Ha].
  - destruct (decide ("Memo Line" ∈ columns df)) as [Hm|Hm].
    + exists (Ok (scan df)). intros lg. by apply find_assignment_matches_run.
    + exists (Raise (KeyError "Memo Line")). intros lg.
      unfold run, find_assignment_matches, column.
      rewrite (decide_True _ _ Ha), (decide_False _ _ Hm). reflexivity.
  - exists (Raise (KeyError "Assignment")). intros lg.
    unfold run, find_assignment_matches, column.
    rewrite (decide_False _ _ Ha). reflexivity.
Qed.

(** C1.  On a frame that has the two columns the matcher returns, and a
    match [(a, m, x, y)] is in what it returns exactly when [a] and [m] are
    two different rows, the normalized assignment of row [a] and the
    normalized memo of row [m] are not empty, the first in lower case
    occurs in the second in lower case, and [x] and [y] are the raw cells;
    no match pairs a row with itself, and no match is returned twice. *)
Theorem find_assignment_matches_spec (df : DataFrame) (lg : Log) :
  "Assignment" ∈ columns df → "Memo Line" ∈ columns df →
  ∃ matches,
    run (find_assignment_matches df) lg = Ok matches
    ∧ (∀ a m x y,
         mkMatch a m x y ∈ matches ↔
         ∃ assignment_row memo_row,
           rows df !! a = Some assignment_row ∧ rows df !! m = Some memo_row
           ∧ a ≠ m
           ∧ clean_and_normalize_text (cell_at "Assignment" assignment_row) ≠ ""
           ∧ clean_and_normalize_text (cell_at "Memo Line" memo_row) ≠ ""
           ∧ substring
               (Py.lower (clean_and_normalize_text
                            (cell_at "Assignment" assignment_row)))
               (Py.lower (clean_and_normalize_text
                            (cell_at "Memo Line" memo_row)))
           ∧ x = cell_at "Assignment" assignment_row
           ∧ y = cell_at "Memo Line" memo_row)
    ∧ (∀ mt, mt ∈ matches → assign_idx mt ≠ memo_idx mt)
    ∧ NoDup matches.
Proof.
  intros Ha Hm. exists (scan df).
  split; [by apply find_assignment_matches_run|].
  split; [apply elem_of_scan|]. split.
  - intros [a m x y] Hmt. simpl.
    apply elem_of_scan in Hmt as (? & ? & _ & _ & Hne & _). done.
  - apply sorted_NoDup, scan_sorted.
Qed.

Lemma find_assignment_matches_spec_witness :
  "Assignment" ∈ columns invoices ∧ "Memo Line" ∈ columns invoices
  ∧ ∃ matches, run (find_assignment_matches invoices) [] = Ok matches
               ∧ NoDup matches.
Proof.
  assert (Ha : "Assignment" ∈ columns invoices) by repeat constructor.
  assert (Hm : "Memo Line" ∈ columns invoices) by repeat constructor.
  split; [exact Ha|]. split; [exact Hm|].
  destruct (find_assignment_matches_spec invoices [] Ha Hm)
    as (matches & Hrun & _ & _ & Hnd).
  exists matches. split; [exact Hrun | exact Hnd].
Defined.

(** The matcher returns only on a frame that has the two columns. *)
Lemma find_assignment_matches_inv (df : DataFrame) (lg : Log)
    (matches : list Match) :
  run (find_assignment_matches df) lg = Ok matches →
  "Assignment" ∈ columns df ∧ "Memo Line" ∈ columns df ∧ matches = scan df.
Proof.
  intros Hrun.
  destruct (decide ("Assignment" ∈ columns df)) as [Ha|Ha].
  - destruct (decide ("Memo Line" ∈ columns df)) as [Hm|Hm].
    + rewrite find_assignment_matches_run in Hrun by done.
      injection Hrun as <-. done.
    + unfold run, find_assignment_matches, column in Hrun.
      rewrite (decide_True _ _ Ha), (decide_False _ _ Hm) in Hrun. done.
  - unfold run, find_assignment_matches, column in Hrun.
    rewrite (decide_False _ _ Ha) in Hrun. done.
Qed.

(** C5.  Whatever the frame, the matches that the matcher returns are in
    scan order: every match comes before the matches of a later
    assignment row, and before the matches of the same assignment row with
    a later memo row.  And on a frame that has the two columns the matcher
    does return. *)
Theorem find_assignment_matches_sorted (df : DataFrame) (lg : Log) :
  (∀ matches,
     run (find_assignment_matches df) lg = Ok matches →
     StronglySorted match_lt matches
     ∧ (∀ i j x y, i < j → matches !! i = Some x → matches !! j = Some y →
          assign_idx x < assign_idx y
          ∨ (assign_idx x = assign_idx y ∧ memo_idx x < memo_idx y)))
  ∧ ("Assignment" ∈ columns df → "Memo Line" ∈ columns df →
     ∃ matches, run (find_assignment_matches df) lg = Ok matches).
Proof.
  split.
  - intros matches (_ & _ & ->)%find_assignment_matches_inv.
    pose proof (scan_sorted df) as Hs. split; [done|].
    intros i j x y Hij Hx Hy.
    exact (sorted_lookup match_lt _ i j x y Hs Hij Hx Hy).
  - intros Ha Hm. exists (scan df). by apply find_assignment_matches_run.
Qed.

Lemma find_assignment_matches_sorted_witness :
  "Assignment" ∈ columns invoices ∧ "Memo Line" ∈ columns invoices
  ∧ ∃ matches, run (find_assignment_matches invoices) [] = Ok matches
               ∧ StronglySorted match_lt matches.
Proof.
  assert (Ha : "Assignment" ∈ columns invoices) by repeat constructor.
  assert (Hm : "Memo Line" ∈ columns invoices) by repeat constructor.
  split; [exact Ha|]. split; [exact Hm|].
  destruct (find_assignment_matches_sorted invoices []) as [Hsorted Hreturns].
  destruct (Hreturns Ha Hm) as [matches Hrun].
  exists matches. split; [exact Hrun|]. exact (proj1 (Hsorted matches Hrun)).
Defined.

(** C9.  The matcher is deterministic: on the same frame two calls return
    the same matches in the same order (or raise the same exception),
    whatever the logger holds when each call starts, and in particular
    when the second call starts from the log that the first one left. *)
Theorem find_assignment_matches_deterministic (df : DataFrame) (lg1 lg2 : Log) :
  run (find_assignment_matches df) lg1 = run (find_assignment_matches df) lg2
  ∧ run (find_assignment_matches df) (find_assignment_matches df lg1).2
    = run (find_assignment_matches df) lg1.
Proof.
  destruct (find_assignment_matches_result df) as [r Hr].
  by rewrite !Hr.
Qed.

(** ** The output builder *)

Section FirstSeen.

Implicit Types (seen : gset (nat * nat)) (matches : list Match).

Lemma first_seen_sublist seen matches :
  first_seen seen matches `sublist_of` matches.
Proof.
  revert seen. induction matches as [|mt rest IH]; intros seen; simpl.
  - constructor.
  - case_decide; [apply sublist_cons|apply sublist_skip]; apply IH.
Qed.

Lemma first_seen_fresh seen matches p :
  p ∈ first_seen seen matches → pair_key p ∉ seen.
Proof.
  revert seen. induction matches as [|mt rest IH]; intros seen; simpl.
  - by intros ?%elem_of_nil.
  - case_decide as Hk; [apply IH|].
    intros [->|Hp]%elem_of_cons; [done|].
    apply IH in Hp. intros Hs. apply Hp. by apply elem_of_union_l.
Qed.

Lemma first_seen_NoDup seen matches :
  NoDup (pair_key <$> first_seen seen matches).
Proof.
  revert seen. induction matches as [|mt rest IH]; intros seen; simpl.
  - constructor.
  - case_decide as Hk; [apply IH|]. simpl. constructor; [|apply IH].
    intros (p & Hkey & Hp)%list_elem_of_fmap.
    apply first_seen_fresh in Hp. apply Hp. rewrite Hkey.
    by apply elem_of_union_r, elem_of_singleton.
Qed.

Lemma first_seen_covers seen matches mt :
  mt ∈ matches →
  pair_key mt ∈ seen ∨ pair_key mt ∈ pair_key <$> first_seen seen matches.
Proof.
  revert seen. induction matches as [|mt' rest IH]; intros seen; simpl.
  - by intros ?%elem_of_nil.
  - intros [->|Hmt]%elem_of_cons.
    + case_decide; [by left|right; simpl; left].
    + case_decide.
      * by apply IH.
      * destruct (IH (seen ∪ {[pair_key mt']}) Hmt) as [Hs|Hf].
        -- apply elem_of_union in Hs as [Hs|Hs]; [by left|].
           apply elem_of_singleton in Hs as ->. right. simpl. left.
        -- right. simpl. by right.
Qed.

Lemma first_seen_first seen matches p :
  p ∈ first_seen seen matches →
  ∃ before after,
    matches = before ++ p :: after ∧ pair_key p ∉ pair_key <$> before.
Proof.
  revert seen. induction matches as [|mt rest IH]; intros seen; simpl.
  - by intros ?%elem_of_nil.
  - case_decide as Hk.
    + intros Hp. pose proof (first_seen_fresh _ _ _ Hp) as Hfresh.
      destruct (IH _ Hp) as (before & after & -> & Hb).
      exists (mt :: before), after. split; [done|].
      simpl. rewrite not_elem_of_cons. split; [|done]. congruence.
    + intros [->|Hp]%elem_of_cons.
      * exists [], rest. split; [done|]. simpl. apply not_elem_of_nil.
      * pose proof (first_seen_fresh _ _ _ Hp) as Hfresh.
        destruct (IH _ Hp) as (before & after & -> & Hb).
        exists (mt :: before), after. split; [done|].
        simpl. rewrite not_elem_of_cons. split; [|done].
        intros E. apply Hfresh. rewrite E.
        by apply elem_of_union_r, elem_of_singleton.
Qed.

(** As many pairs are opened as there are distinct pair keys. *)
Lemma first_seen_length matches :
  length (first_seen ∅ matches) = size (pair_keys matches).
Proof.
  rewrite <- (length_fmap pair_key).
  rewrite <- (size_list_to_set (C := gset (nat * nat)))
    by apply first_seen_NoDup.
  f_equal. apply set_eq. intros k. unfold pair_keys.
  rewrite !elem_of_list_to_set, !list_elem_of_fmap. split.
  - intros (p & -> & Hp). exists p. split; [done|].
    eapply elem_of_sublist; [done|apply first_seen_sublist].
  - intros (mt & -> & Hmt).
    destruct (first_seen_covers ∅ _ _ Hmt) as [H|H];
      [by apply elem_of_empty in H|].
    by apply list_elem_of_fmap in H.
Qed.

End FirstSeen.

Section OutputBuilder.

Variable df : DataFrame.

Lemma iloc_ok (i : nat) (row : Series) (lg : Log) :
  rows df !! i = Some row → iloc df i lg = (Ok row, lg).
Proof. intros H. unfold iloc. by rewrite H. Qed.

Lemma pair_body_seen (mt : Match) (filtered_rows : list Series)
    (processed_pairs : gset (nat * nat)) (lg : Log) :
  pair_key mt ∈ processed_pairs →
  pair_body df mt (filtered_rows, processed_pairs) lg
  = (Ok (filtered_rows, processed_pairs), lg).
Proof. intros Hk. unfold pair_body. by rewrite (decide_True _ _ Hk). Qed.

Lemma pair_body_new (mt : Match) (filtered_rows : list Series)
    (processed_pairs : gset (nat * nat)) (lg : Log)
    (assign_row memo_row : Series) :
  pair_key mt ∉ processed_pairs →
  rows df !! assign_idx mt = Some assign_row →
  rows df !! memo_idx mt = Some memo_row →
  pair_body df mt (filtered_rows, processed_pairs) lg
  = (Ok (filtered_rows ++ [assign_row; memo_row],
         processed_pairs ∪ {[pair_key mt]}), lg).
Proof.
  intros Hk Hra Hrm. unfold pair_body. rewrite (decide_False _ _ Hk).
  unfold mbind, M_bind. by rewrite (iloc_ok _ _ _ Hra), (iloc_ok _ _ _ Hrm).
Qed.

(** The loop appends the two rows of every match that opens a pair. *)
Lemma pair_loop (matches : list Match) :
  Forall (in_range df) matches →
  ∀ filtered_rows processed_pairs lg,
  ∃ added processed_pairs' lg',
    for_each matches (pair_body df) (filtered_rows, processed_pairs) lg
    = (Ok (filtered_rows ++ added, processed_pairs'), lg')
    ∧ Some <$> added
      = flat_map (pair_rows df) (first_seen processed_pairs matches).
Proof.
  induction 1 as [|mt rest [Ha Hm] _ IH]; intros filtered_rows seen lg.
  - exists [], seen, lg. simpl. by rewrite app_nil_r.
  - rewrite for_each_cons. simpl first_seen. case_decide as Hk.
    + rewrite pair_body_seen by done. apply IH.
    + destruct (lookup_lt_is_Some_2 (rows df) _ Ha) as [assign_row Hra].
      destruct (lookup_lt_is_Some_2 (rows df) _ Hm) as [memo_row Hrm].
      rewrite (pair_body_new _ _ _ _ _ _ Hk Hra Hrm).
      destruct (IH (filtered_rows ++ [assign_row; memo_row])
                   (seen ∪ {[pair_key mt]}) lg)
        as (added & seen' & lg' & Hloop & Hadded).
      exists ([assign_row; memo_row] ++ added), seen', lg'. split.
      * rewrite Hloop. by rewrite <- app_assoc.
      * rewrite fmap_app, Hadded. simpl. unfold pair_rows at 1.
        by rewrite Hra, Hrm.
Qed.

Lemma pair_rows_length (pairs : list Match) :
  length (flat_map (pair_rows df) pairs) = 2 * length pairs.
Proof. induction pairs as [|p pairs IH]; simpl; lia. Qed.

(** Every match of a scan names two rows of the frame. *)
Lemma scan_in_range : Forall (in_range df) (scan df).
Proof.
  apply Forall_forall. intros [a m x y] Hmt.
  apply elem_of_scan in Hmt as (ra & rm & Hra & Hrm & _).
  split; simpl; by eapply lookup_lt_Some.
Qed.

End OutputBuilder.

(** C2.  For a list of matches whose indices are rows of the frame the
    output builder returns a table with twice as many rows as the matches
    have distinct pair keys.  Its rows are, pair after pair, the assignment
    row and then the memo row of the matches that open a pair: these are
    taken from the matches in their order, no two of them have the same
    pair key, every pair key of the matches is the key of one of them, and
    each of them is the first match with its pair key.  With no match the
    table is the empty frame. *)
Theorem create_filtered_output_spec (df : DataFrame) (matches : list Match)
    (lg : Log) :
  Forall (in_range df) matches →
  ∃ out pairs,
    run (create_filtered_output df matches) lg = Ok out
    ∧ length (rows out) = 2 * size (pair_keys matches)
    ∧ Some <$> rows out = flat_map (pair_rows df) pairs
    ∧ pairs `sublist_of` matches
    ∧ NoDup (pair_key <$> pairs)
    ∧ (∀ mt, mt ∈ matches → pair_key mt ∈ pair_key <$> pairs)
    ∧ (∀ p, p ∈ pairs →
         ∃ before after,
           matches = before ++ p :: after
           ∧ pair_key p ∉ pair_key <$> before)
    ∧ (matches = [] → out = empty_frame).
Proof.
  intros Hrange.
  assert (∃ out, run (create_filtered_output df matches) lg = Ok out
                 ∧ Some <$> rows out
                   = flat_map (pair_rows df) (first_seen ∅ matches)
                 ∧ (matches = [] → out = empty_frame))
    as (out & Hrun & Hrows & Hnil).
  { destruct matches as [|mt rest]; [by exists empty_frame|].
    unfold run, create_filtered_output.
    destruct (pair_loop df _ Hrange [] ∅ lg)
      as (added & seen' & lg' & Hloop & Hadded).
    unfold mbind at 1, M_bind at 1. rewrite Hloop. revert Hadded.
    generalize (flat_map (pair_rows df) (first_seen ∅ (mt :: rest))).
    intros two_by_two <-. simpl. destruct added as [|row added].
    - by exists empty_frame.
    - eexists. split; [reflexivity|]. done. }
  exists out, (first_seen ∅ matches).
  split; [done|]. split.
  { rewrite <- (length_fmap Some), Hrows, pair_rows_length.
    by rewrite first_seen_length. }
  split; [done|]. split; [apply first_seen_sublist|].
  split; [apply first_seen_NoDup|]. split.
  { intros mt Hmt. destruct (first_seen_covers ∅ _ _ Hmt) as [H|H]; [|done].
    by apply elem_of_empty in H. }
  split; [apply first_seen_first | done].
Qed.

Lemma create_filtered_output_spec_witness :
  Forall (in_range invoices) (scan invoices)
  ∧ ∃ out, run (create_filtered_output invoices (scan invoices)) [] = Ok out
           ∧ length (rows out) = 2 * size (pair_keys (scan invoices)).
Proof.
  assert (Hr : Forall (in_range invoices) (scan invoices))
    by (vm_compute; repeat constructor).
  split; [exact Hr|].
  destruct (create_filtered_output_spec invoices (scan invoices) [] Hr)
    as (out & pairs & Hrun & Hlen & _).
  exists out. split; [exact Hrun | exact Hlen].
Defined.

(** A match that names a row the sheet does not have: [df.iloc] raises,
    and the output builder returns nothing. *)
Lemma create_filtered_output_out_of_range :
  run (create_filtered_output invoices [mkMatch 0 3 (Str "INV-1") (Str "memo")]) []
  = Raise IndexError
  ∧ ¬ ∃ out,
        run (create_filtered_output invoices
               [mkMatch 0 3 (Str "INV-1") (Str "memo")]) [] = Ok out
        ∧ length (rows out)
          = 2 * size (pair_keys [mkMatch 0 3 (Str "INV-1") (Str "memo")]).
Proof.
  assert (H : run (create_filtered_output invoices
                     [mkMatch 0 3 (Str "INV-1") (Str "memo")]) []
              = Raise IndexError) by by vm_compute.
  split; [done|]. intros (out & Hout & _). congruence.
Qed.

(** ** The scenario of the specification *)

(** C3.  On the three invoices the matcher returns the match of row 0 in
    row 2 and then the match of row 2 in row 0, both with the raw texts;
    the output builder returns rows 0 and 2 of the sheet, in that order
    and nothing else; the summary counts 2 matches, 1 distinct assignment
    and 2 distinct memos, finds "INV-1" the most frequent with 2 matches,
    2 matches per assignment on average, and 2 matches for 3 rows. *)
Theorem invoices_scenario (lg : Log) :
  let matches := [ mkMatch 0 2 (Str "INV-1") (Str "also INV-1 here");
                   mkMatch 2 0 (Str "INV-1") (Str "ref INV-1 paid") ] in
  run (find_assignment_matches invoices) lg = Ok matches
  ∧ (∃ out,
       run (create_filtered_output invoices matches) lg = Ok out
       ∧ rows out = [ sheet_row (Str "INV-1") (Str "ref INV-1 paid");
                      sheet_row (Str "INV-1") (Str "also INV-1 here") ]
       ∧ Some <$> rows out = [rows invoices !! 0; rows invoices !! 2]
       ∧ length (rows out) = 2)
  ∧ (∃ r,
       run (generate_insights matches {| total_rows := len invoices |}) lg
       = Ok (Report r)
       ∧ total_matches r = 2
       ∧ unique_assignments r = 1
       ∧ unique_memos r = 2
       ∧ most_frequent r = (Str "INV-1", 2)
       ∧ average_matches r = (2 # 1)%Q
       ∧ processing_ratio r = (2 # 3)%Q).
Proof.
  intros matches. split; [|split].
  - rewrite find_assignment_matches_run by repeat constructor.
    by vm_compute.
  - eexists. split; [reflexivity|]. repeat split; reflexivity.
  - eexists. split; [by vm_compute|]. by vm_compute.
Qed.

(** ** The summary *)

Section Summary.

Lemma count_distinct_pos (x : cell) (l : list cell) :
  0 < count_distinct (x :: l).
Proof.
  unfold count_distinct.
  assert (Hx : x ∈ remove_dups (x :: l)) by (apply elem_of_remove_dups; left).
  destruct (remove_dups (x :: l)); [by apply elem_of_nil in Hx|simpl; lia].
Qed.

Lemma truediv_zero (a : nat) (lg : Log) :
  truediv a 0 lg = (Raise ZeroDivisionError, lg).
Proof. reflexivity. Qed.

Lemma truediv_pos (a b : nat) (lg : Log) :
  0 < b → truediv a b lg = (Ok (Z.of_nat a # Pos.of_nat b)%Q, lg).
Proof. intros Hb. unfold truediv. by destruct b; [lia|]. Qed.

(** With matches and rows, the summary is the filled template. *)
Lemma generate_insights_report (mt : Match) (rest : list Match)
    (df_info : DfInfo) (lg : Log) :
  0 < total_rows df_info →
  let matches := mt :: rest in
  run (generate_insights matches df_info) lg
  = Ok (Report {|
      total_matches := length matches;
      unique_assignments := count_distinct (assign_val <$> matches);
      unique_memos := count_distinct (memo_val <$> matches);
      processing_ratio :=
        (Z.of_nat (length matches) # Pos.of_nat (total_rows df_info))%Q;
      processing_efficiency :=
        ((Z.of_nat (length matches) # Pos.of_nat (total_rows df_info)) * 100)%Q;
      most_frequent := most_frequent_of (count_assignments matches);
      average_matches :=
        (Z.of_nat (length matches)
         # Pos.of_nat (count_distinct (assign_val <$> matches)))%Q;
      total_input_rows := total_rows df_info;
      output_rows := length matches * 2
    |}).
Proof.
  intros Hrows matches. subst matches.
  unfold run, generate_insights, try_except.
  unfold mbind, M_bind. cbv beta iota. rewrite truediv_pos by done.
  rewrite fmap_cons. rewrite truediv_pos by apply count_distinct_pos. done.
Qed.

(** With matches and no row, the division is caught. *)
Lemma generate_insights_no_rows (mt : Match) (rest : list Match)
    (df_info : DfInfo) (lg : Log) :
  total_rows df_info = 0 →
  run (generate_insights (mt :: rest) df_info) lg
  = Ok (Sentence "Insights generation encountered an error: division by zero").
Proof.
  intros Hrows. unfold run, generate_insights, try_except.
  unfold mbind at 1, M_bind at 1. cbv beta iota.
  rewrite Hrows, truediv_zero. done.
Qed.

End Summary.

(** C7.  The summary never raises.  Without matches it is the fixed
    sentence, and no ratio is computed, whatever the number of rows; with
    matches and a row count of 0 the division by zero is caught and the
    summary is the sentence that reports the error; with matches and rows
    it is the filled report. *)
Theorem generate_insights_degenerate (matches : list Match) (df_info : DfInfo)
    (lg : Log) :
  (∃ insights, run (generate_insights matches df_info) lg = Ok insights)
  ∧ run (generate_insights [] df_info) lg = Ok (Sentence no_matches_sentence)
  ∧ (matches ≠ [] → total_rows df_info = 0 →
       run (generate_insights matches df_info) lg
       = Ok (Sentence ("Insights generation encountered an error: "
                       +:+ str_exn ZeroDivisionError)))
  ∧ (matches ≠ [] → total_rows df_info ≠ 0 →
       ∃ r, run (generate_insights matches df_info) lg = Ok (Report r)).
Proof.
  split; [|split; [done|split]].
  - destruct matches as [|mt rest]; [by eexists|].
    destruct (decide (total_rows df_info = 0)) as [H0|H0].
    + eexists. by apply generate_insights_no_rows.
    + eexists. apply generate_insights_report. lia.
  - intros Hne H0. destruct matches as [|mt rest]; [done|].
    by apply generate_insights_no_rows.
  - intros Hne H0. destruct matches as [|mt rest]; [done|].
    eexists. apply generate_insights_report. lia.
Qed.

Lemma generate_insights_degenerate_witness :
  scan invoices ≠ []
  ∧ run (generate_insights (scan invoices) {| total_rows := 0 |}) []
    = Ok (Sentence "Insights generation encountered an error: division by zero").
Proof.
  assert (Hne : scan invoices ≠ []) by (vm_compute; discriminate).
  split; [exact Hne|].
  destruct (generate_insights_degenerate (scan invoices) {| total_rows := 0 |} [])
    as (_ & _ & Hzero & _).
  exact (Hzero Hne eq_refl).
Defined.

(** C10.  The processing ratio is not bounded by 1.  On a sheet of three
    rows whose assignment occurs in the memo of the two other rows, the
    sheet passes the column check, the matcher returns six matches for
    three rows, and the summary reports a ratio of 2, that is a processing
    efficiency of 200 percent. *)
Theorem processing_efficiency_unbounded :
  ∃ (df : DataFrame) (matches : list Match) (r : Summary),
    validate_excel_structure df = Ok (true, "File structure is valid.")
    ∧ run (find_assignment_matches df) [] = Ok matches
    ∧ len df < length matches
    ∧ run (generate_insights matches {| total_rows := len df |}) []
      = Ok (Report r)
    ∧ total_matches r = length matches
    ∧ total_input_rows r = len df
    ∧ (1 < processing_ratio r)%Q
    ∧ (100 < processing_efficiency r)%Q.
Proof.
  exists echoes, (scan echoes). eexists.
  split; [by vm_compute|]. split.
  { apply find_assignment_matches_run; repeat constructor. }
  split; [vm_compute; lia|].
  split; [by vm_compute|]. by vm_compute.
Qed.

(** ** The column check *)

Section Validation.

Lemma substring_refl (s : string) : substring s s.
Proof. exists "", "". by rewrite app_empty_r. Qed.

Lemma substring_app (c p s q : string) :
  substring c s → substring c (p +:+ s +:+ q).
Proof.
  intros (pre & suf & ->). exists (p +:+ pre), (suf +:+ q).
  by rewrite !app_assoc_s.
Qed.

Lemma substring_app_l (c s q : string) : substring c s → substring c (s +:+ q).
Proof. apply (substring_app c "" s q). Qed.

Lemma substring_app_r (c p s : string) : substring c s → substring c (p +:+ s).
Proof. intros H. rewrite <- (app_empty_r s). by apply substring_app. Qed.

(** Every element of a list occurs in the joined list. *)
Lemma substring_join (sep c : string) (l : list string) :
  c ∈ l → substring c (Py.join sep l).
Proof.
  induction l as [|x l IH]; [by intros ?%elem_of_nil|].
  rewrite join_cons. intros [->|Hc]%elem_of_cons.
  - destruct l; [apply substring_refl|]. apply substring_app_l, substring_refl.
  - destruct l as [|y l]; [by apply elem_of_nil in Hc|].
    by apply substring_app_r, substring_app_r, IH.
Qed.

Lemma empty_false (df : DataFrame) :
  empty df = false ↔ rows df ≠ [] ∧ columns df ≠ [].
Proof. unfold empty. destruct (rows df), (columns df); simpl; by intuition. Qed.

Lemma elem_of_missing_columns (df : DataFrame) (col : string) :
  col ∈ missing_columns df ↔ col ∈ required_columns ∧ col ∉ columns df.
Proof. unfold missing_columns. rewrite list_elem_of_filter. by intuition. Qed.

Lemma missing_columns_nil (df : DataFrame) :
  missing_columns df = [] ↔
  "Assignment" ∈ columns df ∧ "Memo Line" ∈ columns df.
Proof.
  unfold missing_columns, required_columns.
  rewrite filter_cons, filter_cons, filter_nil.
  destruct (decide ("Assignment" ∉ columns df)) as [Ha|Ha];
    destruct (decide ("Memo Line" ∉ columns df)) as [Hm|Hm];
    try apply dec_stable in Ha; try apply dec_stable in Hm;
    split; try done; by intuition.
Qed.

(** A text is among labels that are all texts when it is among the texts. *)
Lemma elem_of_text_labels (col : string) (texts : list string) :
  col ∈ Text <$> texts ↔ col ∈ texts.
Proof.
  change (col ∈ Text <$> texts) with (Text col ∈ Text <$> texts).
  rewrite list_elem_of_fmap. split.
  - by intros (s & [= ->] & Hs).
  - intros Hcol. by exists col.
Qed.

Lemma not_elem_of_no_label (col : string) : col ∉ ([] : list label).
Proof. exact (not_elem_of_nil (Text col)). Qed.

(** On labels that are all texts [join] gets its items. *)
Lemma texts_of_texts (i : nat) (texts : list string) :
  texts_of i (Text <$> texts) = Ok texts.
Proof.
  revert i. induction texts as [|s texts IH]; intros i; [done|].
  rewrite fmap_cons. simpl. by rewrite IH.
Qed.

(** It raises at the first label that is a number. *)
Lemma texts_of_number (i : nat) (labels : list label) (z : Z) :
  Number z ∈ labels →
  ∃ texts z' rest,
    labels = (Text <$> texts) ++ Number z' :: rest
    ∧ texts_of i labels = Raise (TypeError (i + length texts)).
Proof.
  revert i. induction labels as [|[s|z0] labels IH]; intros i.
  - by intros ?%elem_of_nil.
  - intros [?|Hz]%elem_of_cons; [done|].
    destruct (IH (S i) Hz) as (texts & z' & rest & -> & Hraise).
    exists (s :: texts), z', rest. split; [done|].
    simpl. rewrite Hraise. f_equal. f_equal. lia.
  - intros _. exists [], z0, labels. split; [done|].
    simpl. f_equal. f_equal. lia.
Qed.

End Validation.

(** C8, as the code has it.  Whenever the check returns, it fails exactly
    when the frame has no row or one of the two required columns is
    absent; and it does return on every frame whose column labels are all
    texts.  An empty frame (no row, or no column) gets the message that the
    file is empty, whatever its columns.  For a frame that is not empty,
    misses a required column and has texts for all its column labels, the
    check fails with the sentence that joins the missing columns and then
    the available columns, so that every missing required column and every
    column of the frame occurs in it. *)
Theorem validate_excel_structure_spec (df : DataFrame) :
  (∀ ok message,
     validate_excel_structure df = Ok (ok, message) →
     (ok = false ↔
      rows df = [] ∨ "Assignment" ∉ columns df ∨ "Memo Line" ∉ columns df))
  ∧ (∀ texts, columns df = Text <$> texts →
       ∃ ok message, validate_excel_structure df = Ok (ok, message))
  ∧ (empty df = true →
       validate_excel_structure df
       = Ok (false, "The uploaded Excel file is empty."))
  ∧ (empty df = false → missing_columns df ≠ [] →
       ∀ texts, columns df = Text <$> texts →
       ∃ message,
         validate_excel_structure df = Ok (false, message)
         ∧ message = "Missing required columns: "
                     +:+ Py.join ", " (missing_columns df)
                     +:+ ". Available columns: " +:+ Py.join ", " texts
         ∧ (∀ col, col ∈ required_columns → col ∉ columns df →
              substring col message)
         ∧ (∀ col, col ∈ columns df → substring col message)).
Proof.
  split; [|split; [|split]].
  - intros ok message. unfold validate_excel_structure.
    destruct (empty df) eqn:He.
    + intros [= <- _]. split; [|done]. intros _.
      unfold empty in He. apply orb_true_iff in He as [He|He].
      * left. apply Nat.eqb_eq in He. by destruct (rows df).
      * right. left. apply Nat.eqb_eq in He.
        destruct (columns df); [apply not_elem_of_no_label|done].
    + apply empty_false in He as [Hr Hc].
      destruct (missing_columns df) as [|col l] eqn:Hmiss.
      * intros [= <- _]. apply missing_columns_nil in Hmiss as [Ha Hm].
        split; [done|]. by intros [?|[?|?]].
      * destruct (join_labels _ _); [|done]. intros [= <- _].
        split; [|done]. intros _. right.
        destruct (decide ("Assignment" ∈ columns df)) as [Ha|Ha]; [|by left].
        destruct (decide ("Memo Line" ∈ columns df)) as [Hm|Hm]; [|by right].
        assert (missing_columns df = []) by by apply missing_columns_nil.
        congruence.
  - intros texts Htexts. unfold validate_excel_structure, join_labels.
    rewrite Htexts. rewrite texts_of_texts.
    destruct (empty df); [by eexists _, _|].
    destruct (missing_columns df); by eexists _, _.
  - intros He. unfold validate_excel_structure. by rewrite He.
  - intros He Hmiss texts Htexts.
    exists ("Missing required columns: " +:+ Py.join ", " (missing_columns df)
            +:+ ". Available columns: " +:+ Py.join ", " texts).
    split.
    { unfold validate_excel_structure, join_labels.
      rewrite He, Htexts. rewrite texts_of_texts.
      destruct (missing_columns df); [done|reflexivity]. }
    split; [done|]. split.
    + intros col Hreq Habs. apply substring_app_r, substring_app_l.
      by apply substring_join, elem_of_missing_columns.
    + intros col Hcol. do 3 apply substring_app_r. apply substring_join.
      rewrite Htexts in Hcol. by apply elem_of_text_labels.
Qed.

Lemma validate_excel_structure_spec_witness :
  empty no_assignment = false ∧ missing_columns no_assignment ≠ []
  ∧ columns no_assignment = Text <$> ["Ref"; "Memo Line"]
  ∧ validate_excel_structure no_assignment
    = Ok (false,
          "Missing required columns: Assignment. Available columns: Ref, Memo Line").
Proof.
  assert (He : empty no_assignment = false) by reflexivity.
  assert (Hm : missing_columns no_assignment ≠ [])
    by (vm_compute; discriminate).
  assert (Ht : columns no_assignment = Text <$> ["Ref"; "Memo Line"])
    by reflexivity.
  split; [exact He|]. split; [exact Hm|]. split; [exact Ht|].
  destruct (validate_excel_structure_spec no_assignment) as (_ & _ & _ & Hmsg).
  destruct (Hmsg He Hm _ Ht) as (message & -> & -> & _). reflexivity.
Defined.

(** A header without "Assignment" and no row under it: the column is
    missing, and the message is the one of the empty file, which does not
    name it. *)
Lemma validate_excel_structure_empty_missing :
  "Assignment" ∈ missing_columns header_only
  ∧ validate_excel_structure header_only
    = Ok (false, "The uploaded Excel file is empty.")
  ∧ ¬ substring "Assignment" "The uploaded Excel file is empty."
  ∧ ¬ substring "Memo Line" "The uploaded Excel file is empty.".
Proof.
  split; [|split; [done|split]].
  - apply elem_of_missing_columns. split; [left|].
    change ("Assignment" ∉ columns header_only)
      with (Text "Assignment" ∉ columns header_only).
    intros H. by repeat (apply elem_of_cons in H as [H|H]; [done|]);
      apply elem_of_nil in H.
  - intros H%contains_spec. by vm_compute in H.
  - intros H%contains_spec. by vm_compute in H.
Qed.

(** ** The most frequent assignment *)

Section Frequency.

Implicit Types (l pre ks : list cell) (k v : cell) (g : cell → nat).

Lemma occurrences_snoc pre v k :
  occurrences k (pre ++ [v])
  = occurrences k pre + (if decide (v = k) then 1 else 0).
Proof.
  unfold occurrences. rewrite filter_app, length_app. f_equal.
  rewrite filter_cons, filter_nil. by case_decide.
Qed.

Lemma occurrences_absent l k : k ∉ l → occurrences k l = 0.
Proof.
  intros Hk. unfold occurrences.
  destruct (filter (λ x, x = k) l) as [|x f] eqn:Hf; [done|].
  assert (Hx : x ∈ filter (λ x, x = k) l) by (rewrite Hf; left).
  apply list_elem_of_filter in Hx as [-> Hx]. done.
Qed.

Lemma first_keys_snoc pre v :
  first_keys (pre ++ [v])
  = if decide (v ∈ first_keys pre) then first_keys pre
    else first_keys pre ++ [v].
Proof. unfold first_keys. by rewrite fold_left_app. Qed.

Lemma elem_of_first_keys l k : k ∈ first_keys l ↔ k ∈ l.
Proof.
  induction l as [|v pre IH] using rev_ind; [done|].
  rewrite first_keys_snoc, elem_of_app, list_elem_of_singleton.
  case_decide as Hv.
  - rewrite IH. split; [by left|]. intros [?| ->]; [done|by apply IH].
  - by rewrite elem_of_app, list_elem_of_singleton, IH.
Qed.

Lemma first_keys_NoDup l : NoDup (first_keys l).
Proof.
  induction l as [|v pre IH] using rev_ind; [constructor|].
  rewrite first_keys_snoc. case_decide as Hv; [done|].
  apply NoDup_app. split; [done|]. split; [|apply NoDup_singleton].
  intros k Hk ->%list_elem_of_singleton. done.
Qed.

(** Whatever stands before the first occurrence of a text in the list
    stands before it among the first keys. *)
Lemma first_keys_order l f1 k f2 :
  first_keys l = f1 ++ k :: f2 →
  ∃ p1 p2, l = p1 ++ k :: p2 ∧ ∀ k', k' ∈ p1 → k' ∈ f1.
Proof.
  revert f2. induction l as [|v pre IH] using rev_ind; intros f2.
  - by destruct f1.
  - rewrite first_keys_snoc. case_decide as Hv.
    + intros (p1 & p2 & -> & Hp)%IH. exists p1, (p2 ++ [v]).
      by rewrite <- app_assoc.
    + destruct f2 as [|w f2' _] using rev_ind.
      * intros [Hf ->]%app_inj_tail. exists pre, []. split; [done|].
        intros k' Hk'. rewrite <- Hf. by apply elem_of_first_keys.
      * rewrite app_comm_cons, app_assoc.
        intros [(p1 & p2 & -> & Hp)%IH _]%app_inj_tail.
        exists p1, (p2 ++ [v]). by rewrite <- app_assoc.
Qed.

(** A table with the keys [ks] and the counts [g]. *)
Lemma dict_get_table g ks v (dflt : nat) :
  dict_get ((λ k, (k, g k)) <$> ks) v dflt
  = if decide (v ∈ ks) then g v else dflt.
Proof.
  induction ks as [|k ks IH].
  - by rewrite decide_False by apply not_elem_of_nil.
  - rewrite fmap_cons. simpl dict_get.
    destruct (decide (v = k)) as [->|Hvk].
    + by rewrite decide_True by left.
    + rewrite IH. destruct (decide (v ∈ ks)) as [Hv|Hv].
      * by rewrite decide_True by by right.
      * rewrite decide_False; [done|]. by intros [?|?]%elem_of_cons.
Qed.

Lemma dict_set_present g ks v (c : nat) :
  NoDup ks → v ∈ ks →
  dict_set ((λ k, (k, g k)) <$> ks) v c
  = (λ k, (k, if decide (k = v) then c else g k)) <$> ks.
Proof.
  induction 1 as [|k ks Hk Hks IH]; [by intros ?%elem_of_nil|].
  intros Hv. simpl. destruct (decide (v = k)) as [->|Hvk].
  - rewrite decide_True by done. f_equal.
    apply list_fmap_ext. intros i k' Hk'%list_elem_of_lookup_2.
    rewrite decide_False; [done|]. by intros ->.
  - rewrite decide_False by done. f_equal. apply IH.
    by apply elem_of_cons in Hv as [?|?].
Qed.

Lemma dict_set_absent g ks v (c : nat) :
  v ∉ ks →
  dict_set ((λ k, (k, g k)) <$> ks) v c = ((λ k, (k, g k)) <$> ks) ++ [(v, c)].
Proof.
  induction ks as [|k ks IH]; [done|].
  intros [Hvk Hv]%not_elem_of_cons. rewrite fmap_cons. simpl dict_set.
  rewrite decide_False by done. by rewrite IH.
Qed.

(** One round of the counting loop on the table of [pre]. *)
Lemma count_step pre v :
  let freq := entry pre <$> first_keys pre in
  dict_set freq v (dict_get freq v 0 + 1)
  = entry (pre ++ [v]) <$> first_keys (pre ++ [v]).
Proof.
  intros freq. subst freq. unfold entry.
  rewrite dict_get_table, first_keys_snoc.
  destruct (decide (v ∈ first_keys pre)) as [Hv|Hv].
  - rewrite dict_set_present by (done || apply first_keys_NoDup).
    apply list_fmap_ext. intros i k _. rewrite occurrences_snoc.
    destruct (decide (k = v)) as [->|Hkv].
    + by rewrite decide_True.
    + rewrite decide_False by done. by rewrite Nat.add_0_r.
  - rewrite dict_set_absent by done. rewrite fmap_app. simpl. f_equal.
    + apply list_fmap_ext. intros i k Hk%list_elem_of_lookup_2.
      rewrite occurrences_snoc, decide_False; [by rewrite Nat.add_0_r|].
      by intros ->.
    + rewrite occurrences_snoc, decide_True by done.
      rewrite occurrences_absent; [done|]. by rewrite <- elem_of_first_keys.
Qed.

(** The frequency table: the first keys of the texts with their numbers
    of occurrences. *)
Lemma count_assignments_table (matches : list Match) :
  count_assignments matches
  = entry (assign_val <$> matches) <$> first_keys (assign_val <$> matches).
Proof.
  unfold count_assignments.
  assert (Hfold : ∀ freq,
    fold_left (λ freq mt, dict_set freq (assign_val mt)
                            (dict_get freq (assign_val mt) 0 + 1))
              matches freq
    = fold_left (λ freq v, dict_set freq v (dict_get freq v 0 + 1))
                (assign_val <$> matches) freq).
  { induction matches as [|mt rest IH]; intros freq; [done|]. apply IH. }
  rewrite Hfold. generalize (assign_val <$> matches). clear.
  intros l. induction l as [|v pre IH] using rev_ind; [done|].
  rewrite fold_left_app. simpl. rewrite IH. apply count_step.
Qed.

(** The scan for the maximum: the result is an item, no item has a
    greater count, and the items before it have a smaller one. *)
Lemma max_from_spec (best : cell * nat) (items : list (cell * nat)) :
  ∃ i1 i2,
    best :: items = i1 ++ max_from best items :: i2
    ∧ (∀ x, x ∈ i1 → x.2 < (max_from best items).2)
    ∧ (∀ x, x ∈ best :: items → x.2 ≤ (max_from best items).2).
Proof.
  revert best. induction items as [|x items IH]; intros best.
  - exists [], []. simpl. split; [done|]. split.
    + by intros ? ?%elem_of_nil.
    + by intros ? ->%list_elem_of_singleton.
  - simpl. destruct (Nat.ltb_spec best.2 x.2) as [Hlt|Hge].
    + destruct (IH x) as (i1 & i2 & Heq & Hbefore & Hmax).
      exists (best :: i1), i2. rewrite Heq. split; [done|].
      assert (x.2 ≤ (max_from x items).2) by (apply Hmax; left).
      split.
      * intros y [->|Hy]%elem_of_cons; [lia|by apply Hbefore].
      * intros y [->|Hy]%elem_of_cons; [lia|]. apply Hmax. by rewrite Heq.
    + destruct (IH best) as (i1 & i2 & Heq & Hbefore & Hmax).
      assert (best.2 ≤ (max_from best items).2) by (apply Hmax; left).
      destruct i1 as [|b i1].
      * injection Heq as Hb Hi. exists [], (x :: items).
        rewrite <- Hb. split; [done|]. split.
        -- by intros ? ?%elem_of_nil.
        -- intros y [->|[->|Hy]%elem_of_cons]%elem_of_cons; [lia|lia|].
           rewrite Hb. apply Hmax. by right.
      * injection Heq as <- Hi. exists (best :: x :: i1), i2.
        split; [by rewrite Hi at 1|].
        assert (best.2 < (max_from best items).2) by (apply Hbefore; left).
        split.
        -- intros y [->|[->|Hy]%elem_of_cons]%elem_of_cons; [lia|lia|].
           apply Hbefore. by right.
        -- intros y [->|[->|Hy]%elem_of_cons]%elem_of_cons; [lia|lia|].
           apply Hmax. by right.
Qed.

End Frequency.

(** C6.  With matches and rows the summary names as most frequent an
    assignment text together with the number of matches it appears in; no
    assignment text appears in more matches; and every assignment text met
    before its first match appears in strictly fewer, so that among the
    texts with the maximal count it is the one met first.  The frequency
    table it is read from holds one entry for each distinct assignment
    text, with its number of matches. *)
Theorem most_frequent_first_max (matches : list Match) (df_info : DfInfo)
    (lg : Log) :
  matches ≠ [] → total_rows df_info ≠ 0 →
  let texts := assign_val <$> matches in
  ∃ r v before after,
    run (generate_insights matches df_info) lg = Ok (Report r)
    ∧ most_frequent r = (v, occurrences v texts)
    ∧ (∀ v', occurrences v' texts ≤ occurrences v texts)
    ∧ texts = before ++ v :: after
    ∧ (∀ v', v' ∈ before → occurrences v' texts < occurrences v texts)
    ∧ NoDup (count_assignments matches).*1
    ∧ (∀ k c, (k, c) ∈ count_assignments matches ↔
              k ∈ texts ∧ c = occurrences k texts).
Proof.
  intros Hne Hrows texts.
  destruct matches as [|mt rest]; [done|]. clear Hne.
  set (matches := mt :: rest) in *.
  pose proof (count_assignments_table matches) as Htable. fold texts in Htable.
  assert (Hentries : ∀ k c, (k, c) ∈ count_assignments matches ↔
                            k ∈ texts ∧ c = occurrences k texts).
  { intros k c. rewrite Htable, list_elem_of_fmap. unfold entry. split.
    - intros (k' & [= -> ->] & Hk). split; [by apply elem_of_first_keys|done].
    - intros [Hk ->]. exists k. by rewrite elem_of_first_keys. }
  assert (Hkeys : (count_assignments matches).*1 = first_keys texts).
  { rewrite Htable, <- list_fmap_compose. apply list_fmap_id. }
  destruct (count_assignments matches) as [|x items] eqn:Hfreq.
  { assert (Hmt : (assign_val mt, occurrences (assign_val mt) texts) ∈ [])
      by (apply Hentries; split; [left|done]).
    by apply elem_of_nil in Hmt. }
  destruct (max_from_spec x items) as (i1 & i2 & Hsplit & Hbefore & Hmax).
  destruct (max_from x items) as [v c] eqn:Hbest.
  assert (Hv : v ∈ texts ∧ c = occurrences v texts).
  { apply Hentries. rewrite Hsplit. apply elem_of_app. right. left. }
  destruct Hv as [Hv ->].
  assert (Horder : first_keys texts = i1.*1 ++ v :: i2.*1).
  { by rewrite <- Hkeys, Hsplit, fmap_app. }
  apply first_keys_order in Horder as (before & after & Htexts & Hin).
  assert (Hnd : NoDup (x :: items).*1)
    by (rewrite Hkeys; apply first_keys_NoDup).
  eexists _, v, before, after.
  split; [apply generate_insights_report; lia|]. simpl.
  fold matches. rewrite Hfreq. simpl. rewrite Hbest.
  split; [done|]. split; [|split; [done|split; [|split]]].
  - intros v'. destruct (decide (v' ∈ texts)) as [Hv'|Hv'].
    + apply (Hmax (v', occurrences v' texts)). by apply Hentries.
    + rewrite (occurrences_absent _ _ Hv'). lia.
  - intros v' Hv'. apply Hin, list_elem_of_fmap in Hv' as ([k c] & -> & Hk).
    assert (Hkc : (k, c) ∈ x :: items)
      by (rewrite Hsplit; apply elem_of_app; by left).
    apply Hentries in Hkc as [_ ->]. by apply (Hbefore _ Hk).
  - exact Hnd.
  - done.
Qed.

Lemma most_frequent_first_max_witness :
  scan echoes ≠ [] ∧ total_rows {| total_rows := 3 |} ≠ 0
  ∧ ∃ r v, run (generate_insights (scan echoes) {| total_rows := 3 |}) []
           = Ok (Report r)
         ∧ most_frequent r = (v, occurrences v (assign_val <$> scan echoes)).
Proof.
  assert (Hne : scan echoes ≠ []) by (vm_compute; discriminate).
  assert (Hrows : total_rows {| total_rows := 3 |} ≠ 0) by (simpl; lia).
  split; [exact Hne|]. split; [exact Hrows|].
  destruct (most_frequent_first_max (scan echoes) {| total_rows := 3 |} []
              Hne Hrows) as (r & v & _ & _ & Hrun & Hmost & _).
  exists r, v. split; [exact Hrun | exact Hmost].
Defined.


(** * Further properties *)

(** ** The extension check *)

Section Extension.

Implicit Types (c sep : ascii) (s before after : string).

Lemma occurs_cons c d s : occurs c (String d s) ↔ d = c ∨ occurs c s.
Proof.
  unfold occurs. split.
  - intros (before & after & H). destruct before as [|e before].
    + injection H as -> ->. by left.
    + rewrite app_cons in H. injection H as -> ->. right. eauto.
  - intros [->|(before & after & ->)].
    + by exists "", s.
    + by exists (String d before), after.
Qed.

Lemma not_occurs_empty c : ¬ occurs c "".
Proof. intros (before & after & H). by destruct before. Qed.

Lemma contains_char c s : Py.contains (String c "") s = true ↔ occurs c s.
Proof.
  rewrite contains_spec. unfold substring, occurs. split.
  - intros (pre & suf & ->). by exists pre, suf.
  - intros (before & after & ->). by exists before, after.
Qed.

(** Without a separator the text comes back alone. *)
Lemma rsplit1_none sep s : ¬ occurs sep s → rsplit1 sep s = [s].
Proof.
  induction s as [|c s IH]; [done|]. intros Hno. simpl.
  rewrite IH by (intros H; apply Hno, occurs_cons; by right).
  destruct (Ascii.eqb_spec c sep) as [->|Hc]; [|done].
  exfalso. apply Hno, occurs_cons. by left.
Qed.

(** The split is at the last separator. *)
Lemma rsplit1_last sep before after :
  ¬ occurs sep after →
  rsplit1 sep (before +:+ String sep after) = [before; after].
Proof.
  intros Hno. induction before as [|c before IH].
  - change ("" +:+ String sep after) with (String sep after). simpl.
    rewrite rsplit1_none by done. by rewrite Ascii.eqb_refl.
  - rewrite app_cons. simpl. by rewrite IH.
Qed.

Lemma last_occurrence c s :
  occurs c s → ∃ before after, s = before +:+ String c after ∧ ¬ occurs c after.
Proof.
  induction s as [|d s IH]; [by intros ?%not_occurs_empty|].
  intros Hc. destruct (Py.contains (String c "") s) eqn:Hs.
  - apply contains_char, IH in Hs as (before & after & -> & Hno).
    by exists (String d before), after.
  - assert (Hno : ¬ occurs c s).
    { intros H%contains_char. congruence. }
    apply occurs_cons in Hc as [->|Hc]; [|done]. by exists "", s.
Qed.

End Extension.

(** X1.  The extension check never raises.  It accepts a file name exactly
    when the name has a dot and what follows its last dot is, up to letter
    case, "xlsx" or "xls". *)
Theorem allowed_file_spec (filename : string) :
  ∃ b, allowed_file filename = Ok b
       ∧ (b = true ↔
          ∃ stem extension,
            filename = stem +:+ String "." extension
            ∧ ¬ occurs "." extension
            ∧ (Py.lower extension = "xlsx" ∨ Py.lower extension = "xls")).
Proof.
  unfold allowed_file. destruct (Py.contains "." filename) eqn:Hdot.
  - apply contains_char, last_occurrence in Hdot
      as (stem & extension & -> & Hno).
    rewrite rsplit1_last by done. simpl. eexists. split; [done|].
    rewrite bool_decide_eq_true. unfold ALLOWED_EXTENSIONS.
    rewrite elem_of_union, !elem_of_singleton. split.
    + intros Hext. by exists stem, extension.
    + intros (stem' & extension' & Heq & Hno' & Hext).
      pose proof (rsplit1_last "." stem extension Hno) as H1.
      rewrite Heq, (rsplit1_last "." stem' extension' Hno') in H1.
      by injection H1 as -> ->.
  - exists false. split; [done|]. split; [done|].
    intros (stem & extension & -> & _).
    assert (Py.contains "." (stem +:+ String "." extension) = true)
      by (apply contains_char; by exists stem, extension).
    congruence.
Qed.

(** ** How many matches *)

Section Counting.

Context {X A : Type}.

Lemma length_iterrows (l : list X) : length (iterrows l) = length l.
Proof.
  unfold iterrows. rewrite length_zip_with_r_eq; [done|].
  by rewrite length_seq.
Qed.

Lemma flat_map_length_le (f : X → list A) (l : list X) (bound : nat) :
  (∀ x, x ∈ l → length (f x) ≤ bound) →
  length (flat_map f l) ≤ length l * bound.
Proof.
  induction l as [|x l IH]; intros Hf; simpl; [lia|].
  rewrite length_app.
  assert (length (f x) ≤ bound) by (apply Hf; left).
  assert (length (flat_map f l) ≤ length l * bound)
    by (apply IH; intros y Hy; apply Hf; by right).
  lia.
Qed.

(** Rounds that append at most one element, one of them none. *)
Lemma flat_map_length_skip (f : X → list A) (l : list X) (x0 : X) :
  (∀ x, length (f x) ≤ 1) → x0 ∈ l → f x0 = [] →
  length (flat_map f l) + 1 ≤ length l.
Proof.
  intros Hf Hx0 Hskip. induction l as [|x l IH]; [by apply elem_of_nil in Hx0|].
  simpl. rewrite length_app. apply elem_of_cons in Hx0 as [<-|Hx0].
  - rewrite Hskip. simpl.
    pose proof (flat_map_length_le f l 1 (λ x _, Hf x)). lia.
  - specialize (IH Hx0). specialize (Hf x). lia.
Qed.

End Counting.

Lemma length_clean_rows (df : DataFrame) : length (clean_rows df) = len df.
Proof.
  unfold clean_rows, len. rewrite length_zip_with_l_eq; by rewrite !length_fmap.
Qed.

Lemma memo_hits_length (df : DataFrame) (a : nat) (assignment_val : string)
    (memo : nat * CleanRow) :
  length (memo_hits df a assignment_val memo) ≤ 1.
Proof. unfold memo_hits. repeat (destruct (_ : bool); simpl; try lia). Qed.

Lemma memo_hits_self (df : DataFrame) (a : nat) (assignment_val : string)
    (row : CleanRow) :
  memo_hits df a assignment_val (a, row) = [].
Proof. unfold memo_hits. simpl. by rewrite Nat.eqb_refl. Qed.

Lemma scan_length (df : DataFrame) : length (scan df) ≤ len df * (len df - 1).
Proof.
  unfold scan. rewrite <- (length_clean_rows df), <- (length_iterrows (clean_rows df)).
  apply flat_map_length_le. intros [a row] Ha. unfold assignment_hits. simpl.
  destruct (Py.is_empty _); [simpl; lia|].
  pose proof (flat_map_length_skip (memo_hits df a (Assignment_clean row))
                (iterrows (clean_rows df)) (a, row)
                (memo_hits_length df a _) Ha (memo_hits_self df a _ row)).
  lia.
Qed.

(** X2.  With [n] rows the matcher returns at most [n * (n - 1)] matches;
    on a sheet with fewer than two rows it returns none. *)
Theorem find_assignment_matches_count (df : DataFrame) (lg : Log) :
  "Assignment" ∈ columns df → "Memo Line" ∈ columns df →
  ∃ matches,
    run (find_assignment_matches df) lg = Ok matches
    ∧ length matches ≤ len df * (len df - 1)
    ∧ (len df ≤ 1 → matches = []).
Proof.
  intros Ha Hm. exists (scan df).
  split; [by apply find_assignment_matches_run|].
  pose proof (scan_length df) as Hlen. split; [done|].
  intros Hn. apply length_zero_iff_nil.
  assert (len df * (len df - 1) = 0) by (destruct (len df) as [|[|n]]; lia).
  lia.
Qed.

Lemma find_assignment_matches_count_witness :
  "Assignment" ∈ columns echoes ∧ "Memo Line" ∈ columns echoes
  ∧ ∃ matches, run (find_assignment_matches echoes) [] = Ok matches
               ∧ length matches ≤ len echoes * (len echoes - 1).
Proof.
  assert (Ha : "Assignment" ∈ columns echoes) by repeat constructor.
  assert (Hm : "Memo Line" ∈ columns echoes) by repeat constructor.
  split; [exact Ha|]. split; [exact Hm|].
  destruct (find_assignment_matches_count echoes [] Ha Hm)
    as (matches & Hrun & Hlen & _).
  exists matches. split; [exact Hrun | exact Hlen].
Defined.

(** ** The output table *)

(** With matches the table has the columns of the frame. *)
Lemma create_filtered_output_frame (df : DataFrame) (mt : Match)
    (rest : list Match) (lg : Log) :
  Forall (in_range df) (mt :: rest) →
  ∃ filtered_rows,
    run (create_filtered_output df (mt :: rest)) lg
    = Ok {| columns := columns df; rows := filtered_rows |}
    ∧ Some <$> filtered_rows
      = flat_map (pair_rows df) (first_seen ∅ (mt :: rest)).
Proof.
  intros Hrange. unfold run, create_filtered_output.
  destruct (pair_loop df _ Hrange [] ∅ lg)
    as (added & seen' & lg' & Hloop & Hadded).
  unfold mbind at 1, M_bind at 1. rewrite Hloop.
  assert (Hfirst : ∃ pairs, first_seen ∅ (mt :: rest) = mt :: pairs).
  { simpl. rewrite decide_False by apply not_elem_of_empty. eauto. }
  destruct Hfirst as [pairs Hfirst]. rewrite Hfirst in Hadded |- *.
  destruct added as [|row added]; [done|].
  exists (row :: added). split; [reflexivity|done].
Qed.

(** X3.  For matches, at least one, whose indices are rows of the frame,
    the output table keeps the columns of the frame, every one of its rows
    is a row of the frame, and it has [2 * k] rows for some [k] between 1
    and the number of matches. *)
Theorem create_filtered_output_rows (df : DataFrame) (matches : list Match)
    (lg : Log) :
  matches ≠ [] → Forall (in_range df) matches →
  ∃ out k,
    run (create_filtered_output df matches) lg = Ok out
    ∧ columns out = columns df
    ∧ (∀ row, row ∈ rows out → row ∈ rows df)
    ∧ length (rows out) = 2 * k
    ∧ 1 ≤ k ≤ length matches.
Proof.
  intros Hne Hrange. destruct matches as [|mt rest]; [done|].
  destruct (create_filtered_output_frame df mt rest lg Hrange)
    as (filtered_rows & Hrun & Hrows).
  assert (Hk1 : 1 ≤ length (first_seen ∅ (mt :: rest))).
  { simpl. rewrite decide_False by apply not_elem_of_empty. simpl. lia. }
  assert (Hk2 : length (first_seen ∅ (mt :: rest)) ≤ length (mt :: rest))
    by apply sublist_length, first_seen_sublist.
  revert Hrows Hk1 Hk2. generalize (first_seen ∅ (mt :: rest)).
  intros pairs Hrows Hk1 Hk2.
  eexists _, (length pairs).
  split; [exact Hrun|]. simpl. split; [done|]. split; [|split; [|done]].
  - intros row Hrow.
    assert (Hin : Some row ∈ Some <$> filtered_rows)
      by by apply list_elem_of_fmap_2.
    rewrite Hrows in Hin. apply elem_of_flat_map in Hin as (p & _ & Hp).
    unfold pair_rows in Hp.
    apply elem_of_cons in Hp as [Hp|Hp%list_elem_of_singleton];
      symmetry in Hp; by eapply list_elem_of_lookup_2.
  - rewrite <- (length_fmap Some), Hrows, pair_rows_length. lia.
Qed.

Lemma create_filtered_output_rows_witness :
  scan invoices ≠ [] ∧ Forall (in_range invoices) (scan invoices)
  ∧ ∃ out, run (create_filtered_output invoices (scan invoices)) [] = Ok out
           ∧ columns out = columns invoices.
Proof.
  assert (Hne : scan invoices ≠ []) by (vm_compute; discriminate).
  assert (Hr : Forall (in_range invoices) (scan invoices))
    by (vm_compute; repeat constructor).
  split; [exact Hne|]. split; [exact Hr|].
  destruct (create_filtered_output_rows invoices (scan invoices) [] Hne Hr)
    as (out & k & Hrun & Hcols & _).
  exists out. split; [exact Hrun | exact Hcols].
Defined.

(** ** From the column check to the summary *)

Lemma validate_true (df : DataFrame) :
  validate_excel_structure df = Ok (true, "File structure is valid.") →
  0 < len df ∧ "Assignment" ∈ columns df ∧ "Memo Line" ∈ columns df.
Proof.
  unfold validate_excel_structure. destruct (empty df) eqn:He; [done|].
  apply empty_false in He as [Hrows _].
  destruct (missing_columns df) eqn:Hmiss;
    [|by destruct (join_labels _ _)]. intros _.
  apply missing_columns_nil in Hmiss. split; [|done].
  unfold len. destruct (rows df); [done|simpl; lia].
Qed.

(** X4.  On a sheet that passes the column check the calls that follow it
    in [upload_file] all return: the matcher returns matches whose indices
    are rows of the sheet, and when there is a match the output builder
    returns a table that is not empty and the summary, given the number of
    rows of the sheet, is the filled report, not the sentence of a caught
    error. *)
Theorem validated_sheet_is_processed (df : DataFrame) (lg1 lg2 lg3 : Log) :
  validate_excel_structure df = Ok (true, "File structure is valid.") →
  ∃ matches,
    run (find_assignment_matches df) lg1 = Ok matches
    ∧ Forall (in_range df) matches
    ∧ (matches ≠ [] →
         (∃ out, run (create_filtered_output df matches) lg2 = Ok out
                 ∧ rows out ≠ [])
         ∧ (∃ r, run (generate_insights matches {| total_rows := len df |}) lg3
                 = Ok (Report r)
                 ∧ total_matches r = length matches
                 ∧ total_input_rows r = len df)).
Proof.
  intros (Hrows & Ha & Hm)%validate_true. exists (scan df).
  split; [by apply find_assignment_matches_run|].
  split; [apply scan_in_range|]. intros Hne. split.
  - destruct (create_filtered_output_rows df (scan df) lg2 Hne
                (scan_in_range df)) as (out & k & Hrun & _ & _ & Hlen & Hk).
    exists out. split; [done|]. intros Hnil. rewrite Hnil in Hlen.
    simpl in Hlen. lia.
  - destruct (scan df) as [|mt rest]; [done|]. eexists.
    split; [by apply generate_insights_report|]. done.
Qed.

Lemma validated_sheet_is_processed_witness :
  validate_excel_structure invoices = Ok (true, "File structure is valid.")
  ∧ ∃ matches, run (find_assignment_matches invoices) [] = Ok matches
               ∧ Forall (in_range invoices) matches.
Proof.
  assert (Hv : validate_excel_structure invoices = Ok (true, "File structure is valid.")) by reflexivity.
  split; [exact Hv|].
  destruct (validated_sheet_is_processed invoices [] [] [] Hv)
    as (matches & Hrun & Hrange & _).
  exists matches. split; [exact Hrun | exact Hrange].
Defined.

(** ** The output rows that the summary announces *)

Section Announced.

Context `{Countable K}.

Lemma size_list_to_set_le (l : list K) :
  size (list_to_set l : gset K) ≤ length l.
Proof.
  induction l as [|x l IH]; [by rewrite list_to_set_nil, size_empty|].
  rewrite list_to_set_cons. simpl.
  pose proof (size_union_alt ({[x]} : gset K) (list_to_set l)) as Hu.
  pose proof (subseteq_size (list_to_set l ∖ {[x]}) (list_to_set l : gset K)) as Hd.
  rewrite Hu, size_singleton.
  assert (list_to_set l ∖ {[x]} ⊆ (list_to_set l : gset K))
    by apply subseteq_difference_l, reflexivity.
  specialize (Hd ltac:(done)). lia.
Qed.

Lemma size_list_to_set_NoDup (l : list K) :
  size (list_to_set l : gset K) = length l → NoDup l.
Proof.
  induction l as [|x l IH]; [constructor|].
  rewrite list_to_set_cons. simpl. intros Hsize.
  pose proof (size_list_to_set_le l) as Hle.
  destruct (decide (x ∈ l)) as [Hx|Hx].
  - rewrite subseteq_union_1_L in Hsize; [lia|].
    apply singleton_subseteq_l. by apply elem_of_list_to_set.
  - rewrite size_union, size_singleton in Hsize.
    + constructor; [done|]. apply IH. lia.
    + apply disjoint_singleton_l. by rewrite elem_of_list_to_set.
Qed.

Lemma NoDup_fmap_eq {A} (f : A → K) (l : list A) (x y : A) :
  NoDup (f <$> l) → x ∈ l → y ∈ l → f x = f y → x = y.
Proof.
  induction l as [|z l IH]; [by intros _ ?%elem_of_nil|].
  rewrite fmap_cons, NoDup_cons. intros [Hz Hl].
  intros [->|Hx]%elem_of_cons [->|Hy]%elem_of_cons Hf.
  - done.
  - exfalso. apply Hz. rewrite Hf. by apply list_elem_of_fmap_2.
  - exfalso. apply Hz. rewrite <- Hf. by apply list_elem_of_fmap_2.
  - by apply IH.
Qed.

End Announced.

(** A match of a scan is known by its two indices. *)
Lemma scan_same_indices (df : DataFrame) (mt1 mt2 : Match) :
  mt1 ∈ scan df → mt2 ∈ scan df →
  assign_idx mt1 = assign_idx mt2 → memo_idx mt1 = memo_idx mt2 → mt1 = mt2.
Proof.
  destruct mt1 as [a m x y], mt2 as [a' m' x' y']. simpl.
  intros (ra & rm & Hra & Hrm & _ & _ & _ & _ & -> & ->)%elem_of_scan.
  intros (ra' & rm' & Hra' & Hrm' & _ & _ & _ & _ & -> & ->)%elem_of_scan.
  intros <- <-. congruence.
Qed.

Lemma scan_not_self (df : DataFrame) (mt : Match) :
  mt ∈ scan df → assign_idx mt ≠ memo_idx mt.
Proof.
  destruct mt as [a m x y]. simpl.
  by intros (ra & rm & _ & _ & Hne & _)%elem_of_scan.
Qed.

(** The matches of a scan have different pair keys exactly when no two of
    them pair the same rows each way round. *)
Lemma scan_pair_keys_NoDup (df : DataFrame) :
  NoDup (pair_key <$> scan df) ↔ ¬ mutual (scan df).
Proof.
  split.
  - intros Hnd (mt1 & mt2 & H1 & H2 & Ham & Hma).
    assert (mt1 = mt2) as ->.
    { apply (NoDup_fmap_eq pair_key (scan df)); [done..|].
      unfold pair_key. f_equal; lia. }
    by apply (scan_not_self df mt2).
  - intros Hmutual. apply NoDup_fmap_2_strong.
    + intros mt1 mt2 H1 H2 Hkey.
      destruct (decide (assign_idx mt1 = assign_idx mt2)) as [Ha|Ha].
      * apply (scan_same_indices df); [done..|].
        unfold pair_key in Hkey. injection Hkey. lia.
      * exfalso. apply Hmutual. exists mt1, mt2.
        split; [done|]. split; [done|].
        unfold pair_key in Hkey. injection Hkey. lia.
    + apply sorted_NoDup, scan_sorted.
Qed.

(** X5.  On a sheet that passes the column check and has matches, the
    summary announces twice as many output rows as there are matches.  The
    output table never has more rows than that, and it has as many exactly
    when no two matches pair the same two rows each way round: for every
    such pair of rows the summary counts two rows more than the table
    has. *)
Theorem announced_output_rows (df : DataFrame) (lg1 lg2 lg3 : Log)
    (matches : list Match) :
  validate_excel_structure df = Ok (true, "File structure is valid.") →
  run (find_assignment_matches df) lg1 = Ok matches →
  matches ≠ [] →
  ∃ out r,
    run (create_filtered_output df matches) lg2 = Ok out
    ∧ run (generate_insights matches {| total_rows := len df |}) lg3
      = Ok (Report r)
    ∧ output_rows r = 2 * length matches
    ∧ length (rows out) = 2 * size (pair_keys matches)
    ∧ length (rows out) ≤ output_rows r
    ∧ (length (rows out) = output_rows r ↔ ¬ mutual matches).
Proof.
  intros (Hrows & _ & _)%validate_true (_ & _ & ->)%find_assignment_matches_inv.
  intros Hne. pose proof (scan_pair_keys_NoDup df) as Hkeys.
  pose proof (scan_in_range df) as Hrange.
  destruct (scan df) as [|mt rest] eqn:Hscan; [done|].
  destruct (create_filtered_output_frame df mt rest lg2 Hrange)
    as (filtered_rows & Hrun & Hfiltered).
  assert (Hlen : length filtered_rows = 2 * size (pair_keys (mt :: rest))).
  { rewrite <- (length_fmap Some), Hfiltered, pair_rows_length.
    by rewrite first_seen_length. }
  pose proof (size_list_to_set_le (pair_key <$> mt :: rest)) as Hle.
  rewrite length_fmap in Hle. fold (pair_keys (mt :: rest)) in Hle.
  eexists _, _. split; [exact Hrun|].
  split; [by apply generate_insights_report|].
  cbn [output_rows rows]. split; [lia|]. split; [done|]. split; [lia|].
  rewrite <- Hkeys, Hlen. split.
  - intros Heq. apply size_list_to_set_NoDup. rewrite length_fmap.
    fold (pair_keys (mt :: rest)). lia.
  - intros Hnd. apply (size_list_to_set (C := gset (nat * nat))) in Hnd.
    rewrite length_fmap in Hnd. fold (pair_keys (mt :: rest)) in Hnd. lia.
Qed.

Lemma announced_output_rows_witness :
  validate_excel_structure invoices = Ok (true, "File structure is valid.")
  ∧ run (find_assignment_matches invoices) [] = Ok (scan invoices)
  ∧ scan invoices ≠ []
  ∧ ∃ out r,
      run (create_filtered_output invoices (scan invoices)) [] = Ok out
      ∧ run (generate_insights (scan invoices) {| total_rows := len invoices |}) []
        = Ok (Report r)
      ∧ length (rows out) ≤ output_rows r.
Proof.
  assert (Hv : validate_excel_structure invoices = Ok (true, "File structure is valid.")) by reflexivity.
  assert (Hrun : run (find_assignment_matches invoices) [] = Ok (scan invoices))
    by reflexivity.
  assert (Hne : scan invoices ≠ []) by (vm_compute; discriminate).
  split; [exact Hv|]. split; [exact Hrun|]. split; [exact Hne|].
  destruct (announced_output_rows invoices [] [] [] (scan invoices) Hv Hrun Hne)
    as (out & r & Hout & Hr & _ & _ & Hle & _).
  exists out, r. split; [exact Hout|]. split; [exact Hr | exact Hle].
Defined.

(** ** The figures of the report *)

Section Figures.

Implicit Types (l : list cell) (d : dict) (k v : cell).

Lemma count_distinct_le l : count_distinct l ≤ length l.
Proof.
  unfold count_distinct. induction l as [|x l IH]; [done|]. simpl.
  case_decide; simpl; lia.
Qed.

Lemma occurrences_le l k : occurrences k l ≤ length l.
Proof. apply length_filter. Qed.

Lemma occurrences_pos l k : k ∈ l → 0 < occurrences k l.
Proof.
  intros Hk. unfold occurrences.
  assert (Hin : k ∈ filter (λ x, x = k) l) by by apply list_elem_of_filter.
  destruct (filter (λ x, x = k) l); [by apply elem_of_nil in Hin|simpl; lia].
Qed.

(** The table has one entry for each distinct text. *)
Lemma first_keys_length l : length (first_keys l) = count_distinct l.
Proof.
  unfold count_distinct. apply Permutation_length, NoDup_Permutation.
  - apply first_keys_NoDup.
  - apply NoDup_remove_dups.
  - intros k. by rewrite elem_of_first_keys, elem_of_remove_dups.
Qed.

(** A round of the counting loop adds one to the sum of the counts. *)
Lemma dict_bump_sum d k :
  sum_list (dict_set d k (dict_get d k 0 + 1)).*2 = sum_list d.*2 + 1.
Proof.
  assert (Hcons : ∀ x (counts : list nat),
            sum_list (x :: counts) = x + sum_list counts) by done.
  induction d as [|[k' c] d IH]; [done|].
  simpl dict_get. simpl dict_set.
  destruct (decide (k = k')) as [->|Hk]; rewrite !fmap_cons, !Hcons.
  - simpl. lia.
  - rewrite IH. simpl. lia.
Qed.

Lemma count_assignments_sum (matches : list Match) :
  sum_list (count_assignments matches).*2 = length matches.
Proof.
  unfold count_assignments.
  assert (Hfold : ∀ d,
    sum_list (fold_left (λ freq mt,
                dict_set freq (assign_val mt)
                  (dict_get freq (assign_val mt) 0 + 1)) matches d).*2
    = sum_list d.*2 + length matches).
  { induction matches as [|mt rest IH]; intros d; simpl; [lia|].
    rewrite IH, dict_bump_sum. lia. }
  by rewrite Hfold.
Qed.

Lemma sum_list_le (counts : list nat) (c : nat) :
  (∀ x, x ∈ counts → x ≤ c) → sum_list counts ≤ length counts * c.
Proof.
  induction counts as [|x counts IH]; intros Hc; simpl; [lia|].
  assert (x ≤ c) by (apply Hc; left).
  assert (sum_list counts ≤ length counts * c)
    by (apply IH; intros y Hy; apply Hc; by right).
  lia.
Qed.

(** The most frequent entry is an entry of the table, and no entry has a
    greater count. *)
Lemma most_frequent_of_max d :
  d ≠ [] →
  most_frequent_of d ∈ d ∧ ∀ x, x ∈ d → x.2 ≤ (most_frequent_of d).2.
Proof.
  destruct d as [|x items]; [done|]. intros _. simpl.
  destruct (max_from_spec x items) as (i1 & i2 & Hsplit & _ & Hmax).
  split; [|done]. rewrite Hsplit at 1. apply elem_of_app. right. left.
Qed.

End Figures.

(** X6.  In a report the number of distinct assignment texts and the
    number of distinct memo texts lie between 1 and the number of matches,
    and so does the count of the most frequent assignment; the counts of
    the frequency table add up to the number of matches; and the most
    frequent count is at least the average number of matches per
    assignment: the number of matches is at most the number of distinct
    assignments times that count. *)
Theorem report_figures (matches : list Match) (df_info : DfInfo) (lg : Log) :
  matches ≠ [] → total_rows df_info ≠ 0 →
  ∃ r,
    run (generate_insights matches df_info) lg = Ok (Report r)
    ∧ total_matches r = length matches
    ∧ 1 ≤ unique_assignments r ≤ total_matches r
    ∧ 1 ≤ unique_memos r ≤ total_matches r
    ∧ 1 ≤ (most_frequent r).2 ≤ total_matches r
    ∧ sum_list (count_assignments matches).*2 = total_matches r
    ∧ total_matches r ≤ unique_assignments r * (most_frequent r).2.
Proof.
  intros Hne Hrows. destruct matches as [|mt rest]; [done|]. clear Hne.
  set (matches := mt :: rest). set (texts := assign_val <$> matches).
  eexists. split; [apply generate_insights_report; lia|].
  cbn [total_matches unique_assignments unique_memos most_frequent].
  fold matches. fold texts.
  pose proof (count_assignments_table matches) as Htable. fold texts in Htable.
  pose proof (count_assignments_sum matches) as Hsum.
  assert (Hd : count_assignments matches ≠ []).
  { intros Hnil. rewrite Hnil in Hsum. by subst matches. }
  destruct (most_frequent_of_max _ Hd) as [Hin Hmax].
  destruct (most_frequent_of (count_assignments matches)) as [v c].
  rewrite Htable in Hin. apply list_elem_of_fmap in Hin as (k & [= -> ->] & Hk).
  apply (proj1 (elem_of_first_keys _ _)) in Hk. simpl in Hmax |- *.
  assert (Hlen : ∀ f : Match → cell, length (f <$> matches) = S (length rest))
    by (intros f; by rewrite length_fmap).
  split; [done|]. split; [|split; [|split; [|split; [done|]]]].
  - split; [apply count_distinct_pos|].
    rewrite <- (Hlen assign_val). apply count_distinct_le.
  - split; [apply count_distinct_pos|].
    rewrite <- (Hlen memo_val). apply count_distinct_le.
  - split; [by apply occurrences_pos|].
    rewrite <- (Hlen assign_val). apply occurrences_le.
  - change (S (length rest)) with (length matches).
    rewrite <- Hsum, <- first_keys_length.
    replace (length (first_keys texts))
      with (length (count_assignments matches).*2)
      by (by rewrite Htable, !length_fmap).
    apply sum_list_le. intros x ([k' c'] & -> & Hx)%list_elem_of_fmap.
    by apply (Hmax (k', c')).
Qed.

Lemma report_figures_witness :
  scan echoes ≠ [] ∧ total_rows {| total_rows := 3 |} ≠ 0
  ∧ ∃ r, run (generate_insights (scan echoes) {| total_rows := 3 |}) []
         = Ok (Report r)
       ∧ total_matches r ≤ unique_assignments r * (most_frequent r).2.
Proof.
  assert (Hne : scan echoes ≠ []) by (vm_compute; discriminate).
  assert (Hrows : total_rows {| total_rows := 3 |} ≠ 0) by (simpl; lia).
  split; [exact Hne|]. split; [exact Hrows|].
  destruct (report_figures (scan echoes) {| total_rows := 3 |} [] Hne Hrows)
    as (r & Hrun & _ & _ & _ & _ & _ & Hmean).
  exists r. split; [exact Hrun | exact Hmean].
Defined.

(** ** Letter case and whitespace *)

Lemma lower_empty (s : string) : Py.lower s = "" ↔ s = "".
Proof. by destruct s. Qed.

Lemma elem_of_scan_indices (df : DataFrame) (a m : nat) :
  (a, m) ∈ indices <$> scan df ↔ hit df a m.
Proof.
  rewrite list_elem_of_fmap. unfold hit, match_key. split.
  - intros ([a' m' x y] & [= -> ->] & Hmt).
    apply elem_of_scan in Hmt
      as (ra & rm & Hra & Hrm & Hne & Ha & Hm & Hsub & _).
    exists ra, rm. by rewrite !lower_empty.
  - intros (ra & rm & Hra & Hrm & Hne & Ha & Hm & Hsub).
    rewrite lower_empty in Ha, Hm.
    exists (mkMatch a m (cell_at "Assignment" ra) (cell_at "Memo Line" rm)).
    split; [done|]. apply elem_of_scan. by exists ra, rm.
Qed.

Lemma pair_lt_irrefl (p : nat * nat) : ¬ pair_lt p p.
Proof. unfold pair_lt. lia. Qed.

Lemma pair_lt_asym (p q : nat * nat) : pair_lt p q → pair_lt q p → p = q.
Proof. unfold pair_lt. lia. Qed.

Lemma scan_indices_sorted (df : DataFrame) :
  StronglySorted pair_lt (indices <$> scan df).
Proof.
  apply (StronglySorted_fmap indices match_lt pair_lt); [done|].
  apply scan_sorted.
Qed.

Lemma pair_sorted_NoDup (l : list (nat * nat)) :
  StronglySorted pair_lt l → NoDup l.
Proof.
  induction 1 as [|p l Hl IH Hp]; constructor; [|done].
  intros Hin. rewrite Forall_forall in Hp.
  by apply (pair_lt_irrefl p), Hp.
Qed.

Lemma hit_same_keys (df1 df2 : DataFrame) (a m : nat) :
  Forall2 same_keys (rows df1) (rows df2) → hit df1 a m → hit df2 a m.
Proof.
  intros Hrows (ra & rm & Hra & Hrm & Hne & Ha & Hm & Hsub).
  destruct (Forall2_lookup_l _ _ _ _ _ Hrows Hra) as (ra' & Hra' & [Haa _]).
  destruct (Forall2_lookup_l _ _ _ _ _ Hrows Hrm) as (rm' & Hrm' & [_ Hmm]).
  exists ra', rm'. by rewrite <- Haa, <- Hmm.
Qed.

Lemma same_keys_flip (rows1 rows2 : list Series) :
  Forall2 same_keys rows1 rows2 → Forall2 same_keys rows2 rows1.
Proof.
  induction 1 as [|r1 r2 l1 l2 [Ha Hm] _ IH]; constructor; [|done].
  by split.
Qed.

(** X7.  Letter case and the layout of whitespace do not matter to the
    matcher: on two sheets whose rows, one by one, have the same
    normalized lower-case text in their two columns, it pairs the same
    rows in the same order. *)
Theorem find_assignment_matches_same_keys (df1 df2 : DataFrame)
    (lg1 lg2 : Log) :
  "Assignment" ∈ columns df1 → "Memo Line" ∈ columns df1 →
  "Assignment" ∈ columns df2 → "Memo Line" ∈ columns df2 →
  Forall2 same_keys (rows df1) (rows df2) →
  ∃ matches1 matches2,
    run (find_assignment_matches df1) lg1 = Ok matches1
    ∧ run (find_assignment_matches df2) lg2 = Ok matches2
    ∧ indices <$> matches1 = indices <$> matches2.
Proof.
  intros Ha1 Hm1 Ha2 Hm2 Hrows. exists (scan df1), (scan df2).
  split; [by apply find_assignment_matches_run|].
  split; [by apply find_assignment_matches_run|].
  apply (StronglySorted_unique_strong pair_lt).
  - intros p q _ _. apply pair_lt_asym.
  - apply scan_indices_sorted.
  - apply scan_indices_sorted.
  - apply NoDup_Permutation.
    + apply pair_sorted_NoDup, scan_indices_sorted.
    + apply pair_sorted_NoDup, scan_indices_sorted.
    + intros [a m]. rewrite !elem_of_scan_indices. split.
      * by apply hit_same_keys.
      * by apply hit_same_keys, same_keys_flip.
Qed.

Lemma find_assignment_matches_same_keys_witness :
  Forall2 same_keys (rows invoices) (rows invoices_retyped)
  ∧ ∃ matches1 matches2,
      run (find_assignment_matches invoices) [] = Ok matches1
      ∧ run (find_assignment_matches invoices_retyped) [] = Ok matches2
      ∧ indices <$> matches1 = indices <$> matches2.
Proof.
  assert (Hrows : Forall2 same_keys (rows invoices) (rows invoices_retyped))
    by (repeat constructor; vm_compute; reflexivity).
  split; [exact Hrows|].
  apply (find_assignment_matches_same_keys invoices invoices_retyped [] []);
    [repeat constructor.. | exact Hrows].
Defined.

(** ** Blank cells *)

Lemma rstrip_blank (s : string) : Py.rstrip s = "" ↔ blank s.
Proof.
  unfold blank. induction s as [|c s IH].
  - split; [|done]. by intros _ d ?%not_occurs_empty.
  - destruct (Py.isspace c) eqn:Hc.
    + rewrite rstrip_space by done. split.
      * intros Hr d [->|Hd]%occurs_cons; [done|].
        apply IH; [|done]. by destruct (Py.rstrip s).
      * intros Hall. rewrite (proj2 IH); [done|].
        intros d Hd. apply Hall, occurs_cons. by right.
    + rewrite rstrip_nonspace by done. split; [done|]. intros Hall.
      assert (Py.isspace c = true) by (apply Hall, occurs_cons; by left).
      congruence.
Qed.

Lemma join_words_empty (ws : list string) :
  Forall is_word ws → Py.join " " ws = "" ↔ ws = [].
Proof.
  intros Hws. split; [|by intros ->].
  destruct Hws as [|w ws [Hw _] _]; [done|].
  rewrite join_cons. destruct ws; [done|]. by destruct w.
Qed.

(** X8.  A cell normalizes to the empty text exactly when it is missing or
    its text has whitespace only; and no match that the matcher returns
    has such a cell as its assignment text or as its memo text. *)
Theorem blank_cells_never_match (v : cell) (df : DataFrame) (lg : Log) :
  (clean_and_normalize_text v = "" ↔ isna v = true ∨ blank (str v))
  ∧ (∀ matches mt,
       run (find_assignment_matches df) lg = Ok matches → mt ∈ matches →
       isna (assign_val mt) = false ∧ ¬ blank (str (assign_val mt))
       ∧ isna (memo_val mt) = false ∧ ¬ blank (str (memo_val mt))).
Proof.
  assert (Hclean : ∀ u, clean_and_normalize_text u = "" ↔
                        isna u = true ∨ blank (str u)).
  { intros u. destruct (isna u) eqn:Hna.
    - destruct u; try done. split; [by left|done].
    - assert (clean_and_normalize_text u = Py.join " " (words (str u))) as ->.
      { unfold clean_and_normalize_text. rewrite Hna.
        apply normalize_join_words. }
      rewrite join_words_empty by by apply words_from_is_word.
      unfold words. rewrite words_from_nil, rstrip_blank.
      split; [by right|]. by intros [?|?]. }
  split; [apply Hclean|].
  intros matches [a m x y] (_ & _ & ->)%find_assignment_matches_inv.
  intros (ra & rm & _ & _ & _ & Ha & Hm & _ & -> & ->)%elem_of_scan. simpl.
  rewrite Hclean in Ha, Hm.
  destruct (isna (cell_at "Assignment" ra)), (isna (cell_at "Memo Line" rm));
    by intuition.
Qed.

Lemma blank_cells_never_match_witness :
  run (find_assignment_matches invoices) [] = Ok (scan invoices)
  ∧ mkMatch 0 2 (Str "INV-1") (Str "also INV-1 here") ∈ scan invoices
  ∧ ¬ blank "INV-1".
Proof.
  assert (Hrun : run (find_assignment_matches invoices) [] = Ok (scan invoices))
    by reflexivity.
  assert (Hin : mkMatch 0 2 (Str "INV-1") (Str "also INV-1 here")
                ∈ scan invoices) by (vm_compute; left).
  split; [exact Hrun|]. split; [exact Hin|].
  destruct (blank_cells_never_match NaN invoices []) as [_ Hmatches].
  destruct (Hmatches _ _ Hrun Hin) as (_ & Hblank & _). exact Hblank.
Defined.

(** ** What the matcher logs *)

Section Writes.

Context {X A : Type}.

(** A loop whose rounds append to the list they build and to the log
    appends to both, round after round. *)
Lemma for_each_writes (f : X → list A) (g : X → Log)
    (body : X → list A → M (list A)) (l : list X) :
  (∀ x, x ∈ l → ∀ s lg, body x s lg = (Ok (s ++ f x), lg ++ g x)) →
  ∀ s lg, for_each l body s lg
          = (Ok (s ++ flat_map f l), lg ++ flat_map g l).
Proof.
  induction l as [|x l IH]; intros Hbody s lg.
  - simpl. by rewrite !app_nil_r.
  - rewrite for_each_cons, (Hbody x (list_elem_of_here _ _)).
    rewrite IH by (intros y Hy; apply Hbody; by right).
    simpl. by rewrite <- !app_assoc.
Qed.

Lemma flat_map_fmap {B} (f : X → list A) (h : A → B) (l : list X) :
  flat_map (λ x, h <$> f x) l = h <$> flat_map f l.
Proof.
  induction l as [|x l IH]; [done|]. simpl. by rewrite IH, fmap_app.
Qed.

End Writes.

Section MatcherLog.

Variable df : DataFrame.
Hypothesis assignment_column : "Assignment" ∈ columns df.
Hypothesis memo_column : "Memo Line" ∈ columns df.

Lemma clean_row_raw (i : nat) (row : CleanRow) :
  (i, row) ∈ iterrows (clean_rows df) →
  i < len df
  ∧ Assignment_clean row = clean_and_normalize_text (raw df "Assignment" i)
  ∧ Memo_Line_clean row = clean_and_normalize_text (raw df "Memo Line" i).
Proof.
  rewrite elem_of_iterrows, clean_rows_lookup. intros (r & Hr & ->).
  unfold raw, len. rewrite Hr. simpl. split; [|done].
  by eapply lookup_lt_Some.
Qed.

Lemma memo_body_writes (a : nat) (assignment_val : string)
    (memo : nat * CleanRow) (s : list Match) (lg : Log) :
  a < len df →
  assignment_val = clean_and_normalize_text (raw df "Assignment" a) →
  memo ∈ iterrows (clean_rows df) →
  memo_body df a assignment_val memo s lg
  = (Ok (s ++ memo_hits df a assignment_val memo),
     lg ++ (match_record <$> memo_hits df a assignment_val memo)).
Proof.
  intros Ha Hval. destruct memo as [m memo_row].
  intros (Hm & _ & Hmemo)%clean_row_raw.
  unfold memo_body, memo_hits. simpl.
  destruct (a =? m); [by rewrite !app_nil_r|].
  destruct (Py.is_empty _); [by rewrite !app_nil_r|].
  destruct (Py.contains _ _); [|by rewrite !app_nil_r].
  unfold mbind, M_bind. rewrite !iloc_at_ok by done. simpl.
  unfold match_record. simpl. by rewrite <- Hval, <- Hmemo.
Qed.

Lemma assignment_body_writes (assignment : nat * CleanRow)
    (s : list Match) (lg : Log) :
  assignment ∈ iterrows (clean_rows df) →
  assignment_body df (clean_rows df) assignment s lg
  = (Ok (s ++ assignment_hits df assignment),
     lg ++ (match_record <$> assignment_hits df assignment)).
Proof.
  destruct assignment as [a assignment_row].
  intros (Ha & Hval & _)%clean_row_raw.
  unfold assignment_body, assignment_hits. simpl.
  destruct (Py.is_empty _); [by rewrite !app_nil_r|].
  unfold mbind, M_bind. simpl. rewrite <- flat_map_fmap.
  apply for_each_writes. intros memo Hmemo s' lg'.
  by apply memo_body_writes.
Qed.

(** The matcher with its log. *)
Lemma find_assignment_matches_log (lg : Log) :
  find_assignment_matches df lg
  = (Ok (scan df),
     lg ++ [start_record (len df)] ++ (match_record <$> scan df)
        ++ [total_record (length (scan df))]).
Proof.
  unfold find_assignment_matches, column.
  rewrite (decide_True _ _ assignment_column), (decide_True _ _ memo_column).
  unfold mbind at 1 2, M_bind at 1 2. simpl. fold (clean_rows df).
  unfold mbind at 1, M_bind at 1. simpl.
  unfold mbind at 1, M_bind at 1.
  rewrite (for_each_writes (assignment_hits df)
             (λ x, match_record <$> assignment_hits df x))
    by (intros x Hx s lg0; by apply assignment_body_writes).
  rewrite flat_map_fmap. fold (scan df). simpl.
  unfold start_record, total_record. rewrite length_clean_rows.
  unfold mbind, M_bind, log, mret, M_ret. simpl.
  by rewrite <- !app_assoc.
Qed.

End MatcherLog.

(** X9.  On a frame that has the two columns the matcher keeps every
    record that the log holds and appends to it: one record with the
    number of rows, then one [INFO] record for each match that it
    returns, in the order of the matches, naming the two normalized texts
    and the two rows, then one record with the number of matches. *)
Theorem find_assignment_matches_audit_trail (df : DataFrame) (lg : Log) :
  "Assignment" ∈ columns df → "Memo Line" ∈ columns df →
  ∃ matches,
    find_assignment_matches df lg
    = (Ok matches,
       lg ++ [start_record (len df)] ++ (match_record <$> matches)
          ++ [total_record (length matches)])
    ∧ length (find_assignment_matches df lg).2
      = length lg + length matches + 2.
Proof.
  intros Ha Hm. exists (scan df).
  rewrite (find_assignment_matches_log df Ha Hm lg). split; [done|].
  cbn [snd]. rewrite !length_app, length_fmap. simpl. lia.
Qed.

Lemma find_assignment_matches_audit_trail_witness :
  "Assignment" ∈ columns invoices ∧ "Memo Line" ∈ columns invoices
  ∧ (find_assignment_matches invoices []).2
    = [ (INFO, "Starting match process with 3 rows");
        (INFO, "Match found: 'INV-1' in 'also INV-1 here' (rows 0-2)");
        (INFO, "Match found: 'INV-1' in 'ref INV-1 paid' (rows 2-0)");
        (INFO, "Total matches found: 2") ].
Proof.
  assert (Ha : "Assignment" ∈ columns invoices) by repeat constructor.
  assert (Hm : "Memo Line" ∈ columns invoices) by repeat constructor.
  split; [exact Ha|]. split; [exact Hm|].
  destruct (find_assignment_matches_audit_trail invoices [] Ha Hm)
    as (matches & Hrun & _).
  rewrite Hrun. injection Hrun as Hmatches _. rewrite <- Hmatches.
  reflexivity.
Defined.

(** ** Matches that open no pair *)

Section Absorbed.

Implicit Types (seen : gset (nat * nat)) (matches more : list Match).

Lemma first_seen_app seen matches more :
  first_seen seen (matches ++ more)
  = first_seen seen matches ++ first_seen (seen ∪ pair_keys matches) more.
Proof.
  revert seen. induction matches as [|mt rest IH]; intros seen.
  - simpl. unfold pair_keys. simpl. by rewrite union_empty_r_L.
  - simpl. unfold pair_keys. rewrite fmap_cons, list_to_set_cons.
    fold (pair_keys rest). case_decide as Hk.
    + rewrite IH. f_equal. f_equal. apply set_eq. intros k.
      rewrite !elem_of_union, elem_of_singleton. split; [by intuition|].
      intros [?|[->|?]]; by intuition.
    + simpl. rewrite IH. f_equal. f_equal. f_equal. apply set_eq. intros k.
      rewrite !elem_of_union, elem_of_singleton. by intuition.
Qed.

Lemma first_seen_all_seen seen more :
  (∀ mt, mt ∈ more → pair_key mt ∈ seen) → first_seen seen more = [].
Proof.
  induction more as [|mt rest IH]; [done|]. intros Hseen. simpl.
  rewrite decide_True by (apply Hseen; left).
  apply IH. intros mt' Hmt'. apply Hseen. by right.
Qed.

End Absorbed.

(** X10.  Matches that come after matches with the same pair keys change
    nothing: the output table for a list of matches followed by matches
    that pair rows already paired, in either direction, is the output
    table for the list alone. *)
Theorem create_filtered_output_absorbs (df : DataFrame)
    (matches more : list Match) (lg lg' : Log) :
  matches ≠ [] →
  Forall (in_range df) (matches ++ more) →
  (∀ mt, mt ∈ more → pair_key mt ∈ pair_key <$> matches) →
  ∃ out,
    run (create_filtered_output df (matches ++ more)) lg = Ok out
    ∧ run (create_filtered_output df matches) lg' = Ok out.
Proof.
  intros Hne Hrange Hmore. destruct matches as [|mt rest]; [done|].
  assert (Hrange' : Forall (in_range df) (mt :: rest))
    by by apply Forall_app in Hrange as [? _].
  destruct (create_filtered_output_frame df mt (rest ++ more) lg Hrange)
    as (rows1 & Hrun1 & Hrows1).
  destruct (create_filtered_output_frame df mt rest lg' Hrange')
    as (rows2 & Hrun2 & Hrows2).
  change (mt :: rest ++ more) with ((mt :: rest) ++ more) in Hrows1.
  rewrite first_seen_app in Hrows1.
  rewrite (first_seen_all_seen (∅ ∪ pair_keys (mt :: rest)) more) in Hrows1.
  - rewrite app_nil_r, <- Hrows2 in Hrows1.
    apply (inj (fmap Some)) in Hrows1 as ->.
    eexists. split; [exact Hrun1 | exact Hrun2].
  - intros mt' Hmt'. apply elem_of_union_r. unfold pair_keys.
    apply elem_of_list_to_set. by apply Hmore.
Qed.

Lemma create_filtered_output_absorbs_witness :
  [mkMatch 0 2 (Str "INV-1") (Str "also INV-1 here")] ≠ []
  ∧ ∃ out,
      run (create_filtered_output invoices
             ([mkMatch 0 2 (Str "INV-1") (Str "also INV-1 here")]
              ++ [mkMatch 2 0 (Str "INV-1") (Str "ref INV-1 paid")])) []
      = Ok out
      ∧ run (create_filtered_output invoices
               [mkMatch 0 2 (Str "INV-1") (Str "also INV-1 here")]) []
        = Ok out.
Proof.
  split; [discriminate|].
  apply (create_filtered_output_absorbs invoices).
  - discriminate.
  - vm_compute. repeat constructor.
  - intros mt Hmt. apply list_elem_of_singleton in Hmt as ->. vm_compute. left.
Defined.

(** ** The processing ratio *)

Lemma Zpos_of_nat (n : nat) : 0 < n → Z.pos (Pos.of_nat n) = Z.of_nat n.
Proof.
  intros Hn. rewrite <- (Nat2Pos.id n) at 2 by lia.
  by rewrite positive_nat_Z.
Qed.

(** X11.  On a sheet of [n] rows that passes the column check and has a
    match, the processing ratio of the report is at most [n - 1], that is
    a processing efficiency of at most [(n - 1) * 100] percent. *)
Theorem processing_ratio_bound (df : DataFrame) (lg1 lg2 : Log)
    (matches : list Match) :
  validate_excel_structure df = Ok (true, "File structure is valid.") →
  run (find_assignment_matches df) lg1 = Ok matches →
  matches ≠ [] →
  ∃ r,
    run (generate_insights matches {| total_rows := len df |}) lg2
    = Ok (Report r)
    ∧ (processing_ratio r <= inject_Z (Z.of_nat (len df - 1)))%Q
    ∧ (processing_efficiency r <= inject_Z (Z.of_nat (len df - 1)) * 100)%Q.
Proof.
  intros (Hrows & _ & _)%validate_true (_ & _ & ->)%find_assignment_matches_inv.
  intros Hne. pose proof (scan_length df) as Hlen.
  destruct (scan df) as [|mt rest]; [done|]. eexists.
  split; [by apply generate_insights_report|].
  cbn [processing_ratio processing_efficiency total_rows].
  assert (Hratio : (Z.of_nat (length (mt :: rest)) # Pos.of_nat (len df)
                    <= inject_Z (Z.of_nat (len df - 1)))%Q).
  { unfold Qle, inject_Z. cbn [Qnum Qden]. rewrite Zpos_of_nat by done. nia. }
  split; [done|]. apply Qmult_le_compat_r; [done|]. by vm_compute.
Qed.

Lemma processing_ratio_bound_witness :
  validate_excel_structure echoes = Ok (true, "File structure is valid.")
  ∧ run (find_assignment_matches echoes) [] = Ok (scan echoes)
  ∧ scan echoes ≠ []
  ∧ ∃ r, run (generate_insights (scan echoes) {| total_rows := len echoes |}) []
         = Ok (Report r)
       ∧ (processing_ratio r <= inject_Z (Z.of_nat (len echoes - 1)))%Q.
Proof.
  assert (Hv : validate_excel_structure echoes = Ok (true, "File structure is valid.")) by reflexivity.
  assert (Hrun : run (find_assignment_matches echoes) [] = Ok (scan echoes))
    by reflexivity.
  assert (Hne : scan echoes ≠ []) by (vm_compute; discriminate).
  split; [exact Hv|]. split; [exact Hrun|]. split; [exact Hne|].
  destruct (processing_ratio_bound echoes [] [] (scan echoes) Hv Hrun Hne)
    as (r & Hr & Hratio & _).
  exists r. split; [exact Hr | exact Hratio].
Defined.

(** ** A number in the header *)

(** X12.  On a frame that is not empty and misses a required column, the
    column check does not return when a column label is a number: joining
    the labels raises [TypeError] at the first label that is not a text,
    and no message is produced. *)
Theorem validate_excel_structure_number_label (df : DataFrame) (z : Z) :
  empty df = false → missing_columns df ≠ [] → Number z ∈ columns df →
  ∃ texts z' rest,
    columns df = (Text <$> texts) ++ Number z' :: rest
    ∧ validate_excel_structure df = Raise (TypeError (length texts)).
Proof.
  intros He Hmiss Hz.
  destruct (texts_of_number 0 (columns df) z Hz)
    as (texts & z' & rest & Hcols & Hraise).
  exists texts, z', rest. split; [done|].
  unfold validate_excel_structure, join_labels. rewrite He, Hraise.
  by destruct (missing_columns df).
Qed.

Lemma validate_excel_structure_number_label_witness :
  empty numbered_header = false ∧ missing_columns numbered_header ≠ []
  ∧ Number 2024 ∈ columns numbered_header
  ∧ ∃ item, validate_excel_structure numbered_header = Raise (TypeError item).
Proof.
  assert (He : empty numbered_header = false) by reflexivity.
  assert (Hm : missing_columns numbered_header ≠ [])
    by (vm_compute; discriminate).
  assert (Hz : Number 2024 ∈ columns numbered_header) by repeat constructor.
  split; [exact He|]. split; [exact Hm|]. split; [exact Hz|].
  destruct (validate_excel_structure_number_label numbered_header 2024 He Hm Hz)
    as (texts & z' & rest & _ & Hraise).
  exists (length texts). exact Hraise.
Defined.
